(** * Leaderboard aggregation of the monthly cup backend

    A shallow embedding of [src/util/leaderboard.ts]: the scoring
    functions [getPointsByResult] and [isQualified], and the aggregation
    [updateLeaderboard] that groups the qualifier results of a cup by
    player, sorts the per-player entries by points and ranks them; then
    [updateResults] and the handlers of [src/controllers/admin.ts] that
    change results or the current cup ([updateQualifier],
    [clearQualifier], [deleteQualifier], [setCupToCurrent]).

    Modelling conventions.
    - Prisma [Int] columns and the JavaScript numbers computed from them
      are integers of [Z]; JavaScript adds and subtracts them exactly as
      long as they stay below 2^53 in absolute value, which is the range
      the model is about.
    - [Record<string, LeaderboardEntry>] is modelled by its own
      properties, kept in the order in which [Object.values] enumerates
      them: array-index keys first, by ascending value, then all other
      keys in the order of their creation.  A player id that is a name
      inherited from [Object.prototype] is not handled as a player by the
      source; [accumulate_plain] marks where that happens, and the
      own-property model describes all other runs.
    - The entry objects are shared between the map and the array that is
      sorted and ranked.  An object is identified by the key of the map
      slot that holds it; the array is a list of such references and the
      ranking loop writes [position] through them into the map.
    - The database is a record of tables, each a list of rows in storage
      order; the Prisma calls are computations in a state-and-exception
      monad over it. *)

From Stdlib Require Import ZArith List String Ascii Bool Lia.
From Stdlib Require Import Permutation Sorted.
Import ListNotations.
Open Scope Z_scope.

Set Implicit Arguments.

(** ** Data model (prisma/schema.prisma) *)

Module Cup.
Record t : Type := make {
  id : Z;
  year : Z;
  month : Z;
  public : bool;
  current : bool;
  name : string
}.
End Cup.

Module Qualifier.
Record t : Type := make {
  id : Z;
  version : Z;
  cupId : Z
}.
End Qualifier.

Module QualifierResult.
Record t : Type := make {
  playerId : string;
  position : Z;
  points : Z;
  qualifierId : Z;
  server : Z
}.
End QualifierResult.

Module Leaderboard.
Record t : Type := make {
  id : Z;
  cupId : Z
}.
End Leaderboard.

Module LeaderboardEntry.
Record t : Type := make {
  qualified : bool;
  points : Z;
  playerId : string;
  leaderboardId : Z;
  position : Z
}.

Definition set_points (e : t) (v : Z) : t :=
  make (qualified e) v (playerId e) (leaderboardId e) (position e).

Definition set_qualified (e : t) (v : bool) : t :=
  make v (points e) (playerId e) (leaderboardId e) (position e).

Definition set_position (e : t) (v : Z) : t :=
  make (qualified e) (points e) (playerId e) (leaderboardId e) v.
End LeaderboardEntry.

(** ** Scoring *)

Definition POINT_LIMIT_SERVER_ONE : Z := 6969.
Definition POINT_LIMIT_SERVER_TWO : Z := 4500.

Definition getPointsByResult (result : QualifierResult.t) : Z :=
  let position := QualifierResult.position result in
  let points := QualifierResult.points result in
  if QualifierResult.server result =? 1 then
    if (position >=? 1) && (position <=? 3) then 50000
    else if position =? 4 then 15000
    else if position =? 5 then 10000
    else if points >=? POINT_LIMIT_SERVER_ONE then 7500
    else points
  else if QualifierResult.server result =? 2 then
    if position =? 1 then 6500
    else if position =? 2 then 6000
    else if position =? 3 then 5500
    else if points >=? POINT_LIMIT_SERVER_TWO then 5000
    else points
  else 0.

Definition isQualified (result : QualifierResult.t) : bool :=
  (QualifierResult.position result >=? 1)
  && (QualifierResult.position result <=? 3)
  && (QualifierResult.server result =? 1).

(** The award table as the specification words it, one constructor per
    row: [award_table r v] reads "the table awards [v] to [r]". *)
Inductive award_table (r : QualifierResult.t) : Z -> Prop :=
| award_A_top3 :
    QualifierResult.server r = 1 ->
    1 <= QualifierResult.position r <= 3 ->
    award_table r 50000
| award_A_fourth :
    QualifierResult.server r = 1 ->
    QualifierResult.position r = 4 ->
    award_table r 15000
| award_A_fifth :
    QualifierResult.server r = 1 ->
    QualifierResult.position r = 5 ->
    award_table r 10000
| award_A_threshold :
    QualifierResult.server r = 1 ->
    ~ 1 <= QualifierResult.position r <= 5 ->
    QualifierResult.points r >= 6969 ->
    award_table r 7500
| award_A_raw :
    QualifierResult.server r = 1 ->
    ~ 1 <= QualifierResult.position r <= 5 ->
    QualifierResult.points r < 6969 ->
    award_table r (QualifierResult.points r)
| award_B_first :
    QualifierResult.server r = 2 ->
    QualifierResult.position r = 1 ->
    award_table r 6500
| award_B_second :
    QualifierResult.server r = 2 ->
    QualifierResult.position r = 2 ->
    award_table r 6000
| award_B_third :
    QualifierResult.server r = 2 ->
    QualifierResult.position r = 3 ->
    award_table r 5500
| award_B_threshold :
    QualifierResult.server r = 2 ->
    ~ 1 <= QualifierResult.position r <= 3 ->
    QualifierResult.points r >= 4500 ->
    award_table r 5000
| award_B_raw :
    QualifierResult.server r = 2 ->
    ~ 1 <= QualifierResult.position r <= 3 ->
    QualifierResult.points r < 4500 ->
    award_table r (QualifierResult.points r).

(** The points-based tier a result falls through to when its position
    grants no fixed bonus. *)
Definition points_tier (limit award : Z) (r : QualifierResult.t) : Z :=
  if QualifierResult.points r >=? limit then award
  else QualifierResult.points r.

(** ** The map [Record<string, LeaderboardEntry>]

    Own properties in [Object.values] order.  [array_index] recognises
    the keys that JavaScript enumerates first: the canonical decimal
    numerals of the integers from 0 to 2^32 - 2. *)

Definition is_digit (c : ascii) : bool :=
  ((48 <=? N_of_ascii c) && (N_of_ascii c <=? 57))%N.

Fixpoint digits_value (acc : N) (s : string) : option N :=
  match s with
  | EmptyString => Some acc
  | String c s' =>
      if is_digit c
      then digits_value (acc * 10 + (N_of_ascii c - 48))%N s'
      else None
  end.

Definition array_index (key : string) : option N :=
  match key with
  | EmptyString => None
  | String c rest =>
      if (N_of_ascii c =? 48)%N
      then match rest with EmptyString => Some 0%N | _ => None end
      else match digits_value 0%N key with
           | Some n => if (n <=? 4294967294)%N then Some n else None
           | None => None
           end
  end.

Section JSObject.
Variable V : Type.

Definition object : Type := list (string * V).

(** [map[key]], [None] standing for [undefined]. *)
Fixpoint js_get (key : string) (o : object) : option V :=
  match o with
  | [] => None
  | (k, v) :: o' => if String.eqb key k then Some v else js_get key o'
  end.

(** Assignment to a property the object already owns keeps its place. *)
Fixpoint js_replace (key : string) (v : V) (o : object) : object :=
  match o with
  | [] => []
  | (k, w) :: o' =>
      if String.eqb key k then (k, v) :: o'
      else (k, w) :: js_replace key v o'
  end.

(** A new array-index key goes before the first key that is not an
    array index or is a larger one. *)
Fixpoint js_insert_index (n : N) (key : string) (v : V) (o : object)
  : object :=
  match o with
  | [] => [(key, v)]
  | (k, w) :: o' =>
      match array_index k with
      | Some m =>
          if (m <? n)%N then (k, w) :: js_insert_index n key v o'
          else (key, v) :: o
      | None => (key, v) :: o
      end
  end.

(** [map[key] = v]. *)
Definition js_set (key : string) (v : V) (o : object) : object :=
  match js_get key o with
  | Some _ => js_replace key v o
  | None =>
      match array_index key with
      | Some n => js_insert_index n key v o
      | None => o ++ [(key, v)]
      end
  end.

(** [Object.keys] and [Object.values]. *)
Definition js_keys (o : object) : list string := map fst o.
Definition js_values (o : object) : list V := map snd o.

End JSObject.

(** ** Grouping by player (the first loop of [updateLeaderboard]) *)

Definition entry_store : Type := object LeaderboardEntry.t.

(** The object literal a player starts from. *)
Definition fresh_entry (id : string) (leaderboardId : Z)
  : LeaderboardEntry.t :=
  LeaderboardEntry.make false 0 id leaderboardId 0.

(** One iteration of [for (const result of allResultsOfCup)], [map[id]]
    read among the own properties of the map; [accumulate_plain] says
    when the source reads it there. *)
Definition accumulate (leaderboardId : Z) (map : entry_store)
  (result : QualifierResult.t) : entry_store :=
  let id := QualifierResult.playerId result in
  let entry :=
    match js_get id map with
    | Some e => e
    | None => fresh_entry id leaderboardId
    end in
  let points := getPointsByResult result in
  let qualified := isQualified result in
  let entry :=
    LeaderboardEntry.set_points entry (LeaderboardEntry.points entry + points) in
  let entry :=
    if qualified then LeaderboardEntry.set_qualified entry qualified
    else entry in
  js_set id entry map.

Definition groupByPlayer (leaderboardId : Z)
  (allResultsOfCup : list QualifierResult.t) : entry_store :=
  fold_left (accumulate leaderboardId) allResultsOfCup [].

(** ** Sorting

    [Array.prototype.sort] is stable, and the comparator
    [(a, b) => b.points - a.points] is a total preorder, so the sorted
    array is determined whatever algorithm the engine runs: equal
    elements keep their order.  It is computed here by a stable
    insertion sort over a comparator with JavaScript's convention (a
    result of at most 0 leaves the first argument in front). *)

Section Sort.
Variable A : Type.
Variable compareFn : A -> A -> Z.

Fixpoint sort_insert (x : A) (l : list A) : list A :=
  match l with
  | [] => [x]
  | y :: l' =>
      if compareFn x y <=? 0 then x :: y :: l'
      else y :: sort_insert x l'
  end.

Fixpoint js_sort (l : list A) : list A :=
  match l with
  | [] => []
  | x :: l' => sort_insert x (js_sort l')
  end.

End Sort.

(** Reading [points] through a reference; a dangling reference (there
    is none in this program) reads 0. *)
Definition points_at (map : entry_store) (ref : string) : Z :=
  match js_get ref map with
  | Some e => LeaderboardEntry.points e
  | None => 0
  end.

(** [leaderboard.sort((a, b) => b.points - a.points)] on the array of
    references to the entries of [map]. *)
Definition sortLeaderboard (map : entry_store) (leaderboard : list string)
  : list string :=
  js_sort (fun a b => points_at map b - points_at map a) leaderboard.

(** ** Ranking (the second loop of [updateLeaderboard]) *)

Record rank_state : Type := mk_rank_state {
  currentRank : Z;
  previousAmount : option Z;
  rankCount : Z
}.

Definition initial_rank_state : rank_state := mk_rank_state 1 None 0.

(** [previousAmount !== points], [None] standing for [undefined]. *)
Definition strict_neq (previousAmount : option Z) (points : Z) : bool :=
  match previousAmount with
  | None => true
  | Some p => negb (p =? points)
  end.

(** The counters after the [if]/[else if]/[else] of one iteration. *)
Definition advance (st : rank_state) (qualified : bool) (points : Z)
  : Z * Z :=
  if qualified then (currentRank st, rankCount st + 1)
  else if strict_neq (previousAmount st) points
       then (currentRank st + rankCount st, 1)
       else (currentRank st, rankCount st + 1).

(** One iteration of [for (const entry of leaderboard)]: the entry is
    read and written through its reference. *)
Definition rank_step (acc : rank_state * entry_store) (ref : string)
  : rank_state * entry_store :=
  let (st, map) := acc in
  match js_get ref map with
  | None => acc
  | Some entry =>
      let (rank, count) :=
        advance st (LeaderboardEntry.qualified entry)
          (LeaderboardEntry.points entry) in
      (mk_rank_state rank (Some (LeaderboardEntry.points entry)) count,
       js_replace ref (LeaderboardEntry.set_position entry rank) map)
  end.

Definition assignRanks (map : entry_store) (leaderboard : list string)
  : entry_store :=
  snd (fold_left rank_step leaderboard (initial_rank_state, map)).

(** Lines 109 to 150: the map after both loops, and the sorted array of
    references into it. *)
Definition computeLeaderboard (leaderboardId : Z)
  (allResultsOfCup : list QualifierResult.t) : entry_store * list string :=
  let map := groupByPlayer leaderboardId allResultsOfCup in
  let leaderboard := sortLeaderboard map (js_keys map) in
  (assignRanks map leaderboard, leaderboard).

(** What [createMany] is given: [Object.values(map)]. *)
Definition leaderboardEntries (leaderboardId : Z)
  (allResultsOfCup : list QualifierResult.t) : list LeaderboardEntry.t :=
  js_values (fst (computeLeaderboard leaderboardId allResultsOfCup)).

(** The array [leaderboard] after the ranking loop, each reference
    replaced by the entry it points to: the entries in points-descending
    order. *)
Definition deref (map : entry_store) (ref : string) : LeaderboardEntry.t :=
  match js_get ref map with
  | Some e => e
  | None => fresh_entry ref 0
  end.

Definition sortedLeaderboard (leaderboardId : Z)
  (allResultsOfCup : list QualifierResult.t) : list LeaderboardEntry.t :=
  let (map, leaderboard) := computeLeaderboard leaderboardId allResultsOfCup in
  List.map (deref map) leaderboard.

(** ** The database and [updateLeaderboard] *)

Module database.
Record t : Type := make {
  cup : list Cup.t;
  leaderboard : list Leaderboard.t;
  qualifier : list Qualifier.t;
  qualifierResult : list QualifierResult.t;
  leaderboardEntry : list LeaderboardEntry.t
}.

Definition set_leaderboardEntry (db : t) (rows : list LeaderboardEntry.t)
  : t :=
  make (cup db) (leaderboard db) (qualifier db) (qualifierResult db) rows.
End database.

(** The two [throw new Error(...)] of [updateLeaderboard]. *)
Inductive Error : Type :=
| NoCupWithId (cupId : Z)
| CupHasNoLeaderboard.

(** A computation reads and updates the database and either throws or
    returns; the database it leaves behind is part of the outcome in
    both cases. *)
Definition Prisma (A : Type) : Type :=
  database.t -> database.t * (Error + A).

Definition ret {A : Type} (a : A) : Prisma A :=
  fun db => (db, inr a).

Definition throw {A : Type} (e : Error) : Prisma A :=
  fun db => (db, inl e).

Definition bind {A B : Type} (c : Prisma A) (k : A -> Prisma B) : Prisma B :=
  fun db =>
    match c db with
    | (db', inl e) => (db', inl e)
    | (db', inr a) => k a db'
    end.

Notation "x <- c ;; k" := (bind c (fun x => k))
  (at level 61, c at next level, right associativity).

(** [database.cup.findUnique({ where: { id }, include: { leaderboard: true } })] *)
Definition cup_findUnique (cupId : Z)
  : Prisma (option (Cup.t * option Leaderboard.t)) :=
  fun db =>
    (db,
     inr match find (fun c => Cup.id c =? cupId) (database.cup db) with
         | None => None
         | Some c =>
             Some (c, find (fun l => Leaderboard.cupId l =? Cup.id c)
                           (database.leaderboard db))
         end).

(** The rows selected by [where: { qualifier: { cupId } }]: the results
    whose qualifier belongs to the cup. *)
Definition resultsOfCup (cupId : Z) (db : database.t)
  : list QualifierResult.t :=
  filter
    (fun r =>
       existsb
         (fun q =>
            (Qualifier.id q =? QualifierResult.qualifierId r)
            && (Qualifier.cupId q =? cupId))
         (database.qualifier db))
    (database.qualifierResult db).

(** [database.qualifierResult.findMany({ where: { qualifier: { cupId } } })] *)
Definition qualifierResult_findMany (cupId : Z)
  : Prisma (list QualifierResult.t) :=
  fun db => (db, inr (resultsOfCup cupId db)).

(** [database.leaderboardEntry.deleteMany({ where: { leaderboardId } })] *)
Definition leaderboardEntry_deleteMany (leaderboardId : Z) : Prisma unit :=
  fun db =>
    (database.set_leaderboardEntry db
       (filter
          (fun e => negb (LeaderboardEntry.leaderboardId e =? leaderboardId))
          (database.leaderboardEntry db)),
     inr tt).

(** [database.leaderboardEntry.createMany({ data })], for data the table
    takes; that Prisma can refuse the data is not modelled. *)
Definition leaderboardEntry_createMany (data : list LeaderboardEntry.t)
  : Prisma unit :=
  fun db =>
    (database.set_leaderboardEntry db (database.leaderboardEntry db ++ data),
     inr tt).

(** [updateLeaderboard]; the closing [Log.complete] only prints. *)
Definition updateLeaderboard (cupId : Z) : Prisma unit :=
  found <- cup_findUnique cupId ;;
  match found with
  | None => throw (NoCupWithId cupId)
  | Some (_, None) => throw CupHasNoLeaderboard
  | Some (cup, Some leaderboard) =>
      allResultsOfCup <- qualifierResult_findMany (Cup.id cup) ;;
      _ <- leaderboardEntry_deleteMany (Leaderboard.id leaderboard) ;;
      leaderboardEntry_createMany
        (leaderboardEntries (Leaderboard.id leaderboard) allResultsOfCup)
  end.

(** ** The properties the specification states, in its words *)

(** The ranking rule of the specification: the rank an entry receives
    and the counters it leaves, by the three cases of the rule. *)
Definition spec_rank_rule (st : rank_state) (e : LeaderboardEntry.t)
  : Z * rank_state :=
  let points := LeaderboardEntry.points e in
  if LeaderboardEntry.qualified e then
    (currentRank st,
     mk_rank_state (currentRank st) (Some points) (rankCount st + 1))
  else if strict_neq (previousAmount st) points then
    let newRank := currentRank st + rankCount st in
    (newRank, mk_rank_state newRank (Some points) 1)
  else
    (currentRank st,
     mk_rank_state (currentRank st) (Some points) (rankCount st + 1)).

(** The rule run over a sequence: the entries with their ranks. *)
Fixpoint spec_rank_pass (st : rank_state) (l : list LeaderboardEntry.t)
  : list LeaderboardEntry.t :=
  match l with
  | [] => []
  | e :: l' =>
      let (rank, st') := spec_rank_rule st e in
      LeaderboardEntry.set_position e rank :: spec_rank_pass st' l'
  end.

(** The counters after the rule has run over a sequence. *)
Definition spec_rank_state (st : rank_state) (l : list LeaderboardEntry.t)
  : rank_state :=
  fold_left (fun st e => snd (spec_rank_rule st e)) l st.

Definition points_descending (a b : LeaderboardEntry.t) : Prop :=
  LeaderboardEntry.points a >= LeaderboardEntry.points b.

(** The results of one player, their awarded total and the OR of their
    qualifying flags. *)
Definition resultsOf (player : string) (results : list QualifierResult.t)
  : list QualifierResult.t :=
  filter (fun r => String.eqb (QualifierResult.playerId r) player) results.

Definition totalPoints (results : list QualifierResult.t) : Z :=
  fold_right Z.add 0 (map getPointsByResult results).

Definition anyQualifying (results : list QualifierResult.t) : bool :=
  existsb isQualified results.

Definition entriesOf (player : string) (entries : list LeaderboardEntry.t)
  : list LeaderboardEntry.t :=
  filter (fun e => String.eqb (LeaderboardEntry.playerId e) player) entries.

(** The qualified-block property of the specification, on a
    points-descending sequence of ranked entries. *)
Definition count_qualified (out : list LeaderboardEntry.t) : Z :=
  Z.of_nat (List.length (filter LeaderboardEntry.qualified out)).

Definition first_non_qualified (out : list LeaderboardEntry.t)
  : option LeaderboardEntry.t :=
  find (fun e => negb (LeaderboardEntry.qualified e)) out.

Definition qualified_block_property (out : list LeaderboardEntry.t) : Prop :=
  (forall e, In e out -> LeaderboardEntry.qualified e = true ->
             LeaderboardEntry.position e = 1)
  /\ (forall n, first_non_qualified out = Some n ->
                LeaderboardEntry.position n =
                  if 0 <? count_qualified out then count_qualified out + 1
                  else 1).

(** What one result does to the entry of its player, and the entry a
    player with the results [mine] ends the first loop with. *)
Definition absorb (entry : LeaderboardEntry.t) (result : QualifierResult.t)
  : LeaderboardEntry.t :=
  let entry :=
    LeaderboardEntry.set_points entry
      (LeaderboardEntry.points entry + getPointsByResult result) in
  if isQualified result
  then LeaderboardEntry.set_qualified entry (isQualified result)
  else entry.

Definition or_fresh (leaderboardId : Z) (id : string)
  (found : option LeaderboardEntry.t) : LeaderboardEntry.t :=
  match found with
  | Some e => e
  | None => fresh_entry id leaderboardId
  end.

Definition grouped_entry (leaderboardId : Z) (player : string)
  (mine : list QualifierResult.t) : LeaderboardEntry.t :=
  LeaderboardEntry.make (anyQualifying mine) (totalPoints mine) player
    leaderboardId 0.

(** A map whose every entry carries the key it is stored under. *)
Definition keyed_by_player (map : entry_store) : Prop :=
  forall k e, js_get k map = Some e -> LeaderboardEntry.playerId e = k.

(** ** Example data *)

Definition result_of (player : string) (qualifierId server position points : Z)
  : QualifierResult.t :=
  QualifierResult.make player position points qualifierId server.

(** Four qualifiers on server 1: "first" wins one of them, "fourth" is
    fourth in all four, and "mixed" is fourth three times and fifth
    once. *)
Definition results_outscored : list QualifierResult.t :=
  [ result_of "first" 1 1 1 0;
    result_of "fourth" 1 1 4 0; result_of "fourth" 2 1 4 0;
    result_of "fourth" 3 1 4 0; result_of "fourth" 4 1 4 0;
    result_of "mixed" 1 1 4 0; result_of "mixed" 2 1 4 0;
    result_of "mixed" 3 1 4 0; result_of "mixed" 4 1 5 0 ]%string.

(** Five qualifiers on server 1: "first" wins one of them and "fifth"
    is fifth in all five, which also makes 50000 points. *)
Definition results_level : list QualifierResult.t :=
  [ result_of "first" 1 1 1 0;
    result_of "fifth" 1 1 5 0; result_of "fifth" 2 1 5 0;
    result_of "fifth" 3 1 5 0; result_of "fifth" 4 1 5 0;
    result_of "fifth" 5 1 5 0 ]%string.

(** One qualifier on server 2: two players reach the threshold of 4500
    raw points outside the first three places, a third does not. *)
Definition results_tie : list QualifierResult.t :=
  [ result_of "anna" 1 2 4 4800;
    result_of "ben" 1 2 5 4600;
    result_of "cleo" 1 2 6 100 ]%string.

(** The end-to-end scenario of the specification. *)
Definition results_scenario : list QualifierResult.t :=
  [ result_of "P1" 1 1 1 0;
    result_of "P2" 1 1 4 0;
    result_of "P3" 1 1 10 7200 ]%string.

(** A database with two cups: cup 1 has a leaderboard and the scenario's
    results, cup 2 has no leaderboard. *)
Definition example_db : database.t :=
  database.make
    [ Cup.make 1 2026 10 true true "October";
      Cup.make 2 2026 11 false false "November" ]%string
    [ Leaderboard.make 7 1 ]
    [ Qualifier.make 1 1 1; Qualifier.make 2 1 2 ]
    (results_scenario ++ [ result_of "P9" 2 1 1 0 ]%string)
    [ LeaderboardEntry.make false 10 "P2" 7 1;
      LeaderboardEntry.make true 50000 "P1" 8 1 ]%string.

(** ** Uploaded rows, players and constraint checks

    The rest of [leaderboard.ts] and the handlers of
    [controllers/admin.ts] that call it.  They also use the [Player]
    table, and Prisma calls that fail: [update] and [delete] of a row
    that does not exist, and [createMany] of rows that break the primary
    key [@@id([playerId, qualifierId, server])] or a relation of
    [QualifierResult] in [schema.prisma].  A failing call changes
    nothing. *)

Module Player.
Record t : Type := make {
  name : string;
  id : string;
  zone : string
}.
End Player.

(** [type Columns = [number, number, string, string, string]], read
    through the indices [POSITION], [POINTS], [NAME], [LOGIN] and
    [ZONE]; the two numbers are integers here, as the [Int] columns
    they are stored in. *)
Module Columns.
Record t : Type := make {
  POSITION : Z;
  POINTS : Z;
  NAME : string;
  LOGIN : string;
  ZONE : string
}.
End Columns.

(** The tables of [database.t] together with [Player]. *)
Module fullDatabase.
Record t : Type := make {
  tables : database.t;
  player : list Player.t
}.

Definition set_tables (w : t) (db : database.t) : t := make db (player w).
Definition set_player (w : t) (rows : list Player.t) : t :=
  make (tables w) rows.
End fullDatabase.

Definition with_qualifierResult (db : database.t)
  (rows : list QualifierResult.t) : database.t :=
  database.make (database.cup db) (database.leaderboard db)
    (database.qualifier db) rows (database.leaderboardEntry db).

Definition with_qualifier (db : database.t) (rows : list Qualifier.t)
  : database.t :=
  database.make (database.cup db) (database.leaderboard db) rows
    (database.qualifierResult db) (database.leaderboardEntry db).

Definition with_cup (db : database.t) (rows : list Cup.t) : database.t :=
  database.make rows (database.leaderboard db) (database.qualifier db)
    (database.qualifierResult db) (database.leaderboardEntry db).

Definition cup_with_current (c : Cup.t) (current : bool) : Cup.t :=
  Cup.make (Cup.id c) (Cup.year c) (Cup.month c) (Cup.public c) current
    (Cup.name c).

(** What a call can throw: an [Error] of [updateLeaderboard], or one of
    the failures of a Prisma call. *)
Inductive Thrown : Type :=
| ThrownError (e : Error)
| RecordNotFound
| UniqueConstraintFailed
| ForeignKeyConstraintFailed.

Definition Task (A : Type) : Type :=
  fullDatabase.t -> fullDatabase.t * (Thrown + A).

Definition task_ret {A : Type} (a : A) : Task A :=
  fun w => (w, inr a).

Definition task_throw {A : Type} (e : Thrown) : Task A :=
  fun w => (w, inl e).

Definition task_bind {A B : Type} (c : Task A) (k : A -> Task B) : Task B :=
  fun w =>
    match c w with
    | (w', inl e) => (w', inl e)
    | (w', inr a) => k a w'
    end.

Notation "x <~ c ;; k" := (task_bind c (fun x => k))
  (at level 61, c at next level, right associativity).

(** A computation on the tables of [database.t], run in the full
    database. *)
Definition liftPrisma {A : Type} (c : Prisma A) : Task A :=
  fun w =>
    match c (fullDatabase.tables w) with
    | (db', inl e) => (fullDatabase.set_tables w db', inl (ThrownError e))
    | (db', inr a) => (fullDatabase.set_tables w db', inr a)
    end.

(** [database.player.upsert({ where: { id }, create: { name, id, zone },
    update: { name, zone } })] *)
Definition player_upsert (id name zone : string) : Task unit :=
  fun w =>
    let players := fullDatabase.player w in
    (fullDatabase.set_player w
       (if existsb (fun p => String.eqb (Player.id p) id) players
        then map (fun p =>
                    if String.eqb (Player.id p) id
                    then Player.make name (Player.id p) zone
                    else p)
                 players
        else players ++ [Player.make name id zone]),
     inr tt).

(** [database.qualifierResult.deleteMany({ where: { qualifierId, server } })] *)
Definition qualifierResult_deleteMany (qualifierId server : Z) : Task unit :=
  fun w =>
    let db := fullDatabase.tables w in
    (fullDatabase.set_tables w
       (with_qualifierResult db
          (filter
             (fun r =>
                negb ((QualifierResult.qualifierId r =? qualifierId)
                      && (QualifierResult.server r =? server)))
             (database.qualifierResult db))),
     inr tt).

(** The primary key of [QualifierResult]. *)
Definition same_key (a b : QualifierResult.t) : bool :=
  String.eqb (QualifierResult.playerId a) (QualifierResult.playerId b)
  && (QualifierResult.qualifierId a =? QualifierResult.qualifierId b)
  && (QualifierResult.server a =? QualifierResult.server b).

(** The rows of [data] can be inserted one after the other: none has the
    key of a stored row or of a row inserted before it. *)
Fixpoint conflict_free (stored data : list QualifierResult.t) : bool :=
  match data with
  | [] => true
  | r :: rest =>
      negb (existsb (same_key r) stored)
      && conflict_free (stored ++ [r]) rest
  end.

(** The relations of a result: its qualifier and its player exist. *)
Definition references_hold (w : fullDatabase.t) (r : QualifierResult.t)
  : bool :=
  existsb (fun q => Qualifier.id q =? QualifierResult.qualifierId r)
          (database.qualifier (fullDatabase.tables w))
  && existsb (fun p => String.eqb (Player.id p) (QualifierResult.playerId r))
             (fullDatabase.player w).

(** [database.qualifierResult.createMany({ data })], for rows whose position
    and points are integers, as [Columns.t] has them. *)
Definition qualifierResult_createMany (data : list QualifierResult.t)
  : Task unit :=
  fun w =>
    let db := fullDatabase.tables w in
    if negb (conflict_free (database.qualifierResult db) data)
    then (w, inl UniqueConstraintFailed)
    else if negb (forallb (references_hold w) data)
    then (w, inl ForeignKeyConstraintFailed)
    else (fullDatabase.set_tables w
            (with_qualifierResult db (database.qualifierResult db ++ data)),
          inr tt).

(** The loop [for (const row of content)] of [updateResults]. *)
Fixpoint upsertPlayers (content : list Columns.t) : Task unit :=
  match content with
  | [] => task_ret tt
  | row :: rest =>
      _ <~ player_upsert (Columns.LOGIN row) (Columns.NAME row)
             (Columns.ZONE row) ;;
      upsertPlayers rest
  end.

(** The row [createMany] is given for an uploaded row. *)
Definition resultOfRow (qualifierId server : Z) (row : Columns.t)
  : QualifierResult.t :=
  QualifierResult.make (Columns.LOGIN row) (Columns.POSITION row)
    (Columns.POINTS row) qualifierId server.

(** [updateResults] *)
Definition updateResults (qualifierId server : Z) (content : list Columns.t)
  : Task unit :=
  _ <~ upsertPlayers content ;;
  _ <~ qualifierResult_deleteMany qualifierId server ;;
  qualifierResult_createMany (map (resultOfRow qualifierId server) content).

(** ** The handlers of [controllers/admin.ts] that update results

    A handler is modelled from the point where [validateInteger] has
    returned: neither it nor Joi is part of the sources, so the integers
    it returns are arguments, next to the raw parameter where a message
    quotes it, and the verdict of a Joi schema on the body is an
    argument of the handler that has one.  What a handler sends is its
    [Response]. *)

Inductive Response : Type :=
| Json_success
| Json_cup (cup : Cup.t)
| Next_HttpError (status : Z) (message : string).

(** [try { ... } catch (error) { next(isHttpError(error) ? error :
    createHttpError(status, message)) }] around a body that throws no
    HttpError of its own. *)
Definition try_catch {A : Type} (body : Task A) (sent : A -> Response)
  (status : Z) (message : string) : fullDatabase.t -> fullDatabase.t * Response :=
  fun w =>
    match body w with
    | (w', inr a) => (w', sent a)
    | (w', inl _) => (w', Next_HttpError status message)
    end.

(** [updateQualifier], after [validateInteger].  [dataSchema server data]
    stands for [dataSchema.validate(request.body).error] at the body with
    this [server] and [data]: the message of Joi's error, if the schema
    of lines 193 to 196 refuses the body.  A refused body is answered
    with that error (it is an HttpError, which the [catch] passes on) and
    nothing is written. *)
Definition updateQualifier (dataSchema : Z -> list Columns.t -> option string)
  (qualifierIdAsNumber cupIdAsNumber server : Z)
  (data : list Columns.t) : fullDatabase.t -> fullDatabase.t * Response :=
  fun w =>
    match dataSchema server data with
    | Some message => (w, Next_HttpError 400 message)
    | None =>
        try_catch
          (_ <~ updateResults qualifierIdAsNumber server data ;;
           liftPrisma (updateLeaderboard cupIdAsNumber))
          (fun _ => Json_success)
          400 "Failed to parse data to leaderboard." w
    end.

(** [database.qualifierResult.deleteMany({ where: { qualifierId } })] *)
Definition qualifierResult_deleteMany_qualifier (qualifierId : Z)
  : Task unit :=
  fun w =>
    let db := fullDatabase.tables w in
    (fullDatabase.set_tables w
       (with_qualifierResult db
          (filter
             (fun r => negb (QualifierResult.qualifierId r =? qualifierId))
             (database.qualifierResult db))),
     inr tt).

(** [clearQualifier], after validation. *)
Definition clearQualifier (qualifierId : string)
  (qualifierIdAsNumber cupIdAsNumber : Z)
  : fullDatabase.t -> fullDatabase.t * Response :=
  try_catch
    (_ <~ qualifierResult_deleteMany_qualifier qualifierIdAsNumber ;;
     liftPrisma (updateLeaderboard cupIdAsNumber))
    (fun _ => Json_success)
    500 ("Failed to clear data of qualifier " ++ qualifierId ++ ".").

(** [database.qualifier.delete({ where: { id } })]; the results of the
    qualifier go with it ([onDelete: Cascade]). *)
Definition qualifier_delete (id : Z) : Task Qualifier.t :=
  fun w =>
    let db := fullDatabase.tables w in
    match find (fun q => Qualifier.id q =? id) (database.qualifier db) with
    | None => (w, inl RecordNotFound)
    | Some q =>
        (fullDatabase.set_tables w
           (with_qualifierResult
              (with_qualifier db
                 (filter (fun q' => negb (Qualifier.id q' =? id))
                    (database.qualifier db)))
              (filter (fun r => negb (QualifierResult.qualifierId r =? id))
                 (database.qualifierResult db))),
         inr q)
    end.

(** [deleteQualifier], after validation. *)
Definition deleteQualifier (qualifierIdAsNumber cupIdAsNumber : Z)
  : fullDatabase.t -> fullDatabase.t * Response :=
  try_catch
    (_ <~ qualifier_delete qualifierIdAsNumber ;;
     liftPrisma (updateLeaderboard cupIdAsNumber))
    (fun _ => Json_success)
    500 "Failed create qualifier.".

(** [database.cup.updateMany({ data: { current: false } })] *)
Definition cup_updateMany_current (current : bool) : Task unit :=
  fun w =>
    let db := fullDatabase.tables w in
    (fullDatabase.set_tables w
       (with_cup db (map (fun c => cup_with_current c current)
                       (database.cup db))),
     inr tt).

(** [database.cup.update({ where: { id }, data: { current } })] *)
Definition cup_update_current (id : Z) (current : bool) : Task Cup.t :=
  fun w =>
    let db := fullDatabase.tables w in
    match find (fun c => Cup.id c =? id) (database.cup db) with
    | None => (w, inl RecordNotFound)
    | Some c =>
        (fullDatabase.set_tables w
           (with_cup db
              (map (fun c' =>
                      if Cup.id c' =? id then cup_with_current c' current
                      else c')
                 (database.cup db))),
         inr (cup_with_current c current))
    end.

(** [setCupToCurrent], after validation. *)
Definition setCupToCurrent (cupId : string) (id : Z)
  : fullDatabase.t -> fullDatabase.t * Response :=
  try_catch
    (_ <~ cup_updateMany_current false ;;
     cup_update_current id true)
    Json_cup
    500 ("Error while deleting cup " ++ cupId ++ ".").

(** ** Measures used in the further properties *)

(** How many entries of a sequence have more points than [points]. *)
Definition count_more (points : Z) (l : list LeaderboardEntry.t) : Z :=
  Z.of_nat
    (List.length (filter (fun x => LeaderboardEntry.points x >? points) l)).

(** The points of a list of entries, added up. *)
Definition sumPoints (entries : list LeaderboardEntry.t) : Z :=
  fold_right Z.add 0 (map LeaderboardEntry.points entries).

(** The primary key of [LeaderboardEntry]. *)
Definition entry_key (e : LeaderboardEntry.t) : string * Z :=
  (LeaderboardEntry.playerId e, LeaderboardEntry.leaderboardId e).

(** The entries of one leaderboard, and those of all others. *)
Definition entriesOfLeaderboard (leaderboardId : Z)
  (rows : list LeaderboardEntry.t) : list LeaderboardEntry.t :=
  filter (fun e => LeaderboardEntry.leaderboardId e =? leaderboardId) rows.

Definition entriesOfOthers (leaderboardId : Z)
  (rows : list LeaderboardEntry.t) : list LeaderboardEntry.t :=
  filter (fun e => negb (LeaderboardEntry.leaderboardId e =? leaderboardId))
    rows.

(** The [Player] table after one upsert, and after the upserts of all
    rows of an upload. *)
Definition upsert (players : list Player.t) (id name zone : string)
  : list Player.t :=
  if existsb (fun p => String.eqb (Player.id p) id) players
  then map (fun p =>
              if String.eqb (Player.id p) id
              then Player.make name (Player.id p) zone
              else p)
           players
  else players ++ [Player.make name id zone].

Definition playersAfter (content : list Columns.t) (players : list Player.t)
  : list Player.t :=
  fold_left
    (fun ps row =>
       upsert ps (Columns.LOGIN row) (Columns.NAME row) (Columns.ZONE row))
    content players.

Definition find_player (id : string) (players : list Player.t)
  : option Player.t :=
  find (fun p => String.eqb (Player.id p) id) players.

(** The last row of an upload with a given login. *)
Definition last_row (login : string) (content : list Columns.t)
  : option Columns.t :=
  find (fun row => String.eqb (Columns.LOGIN row) login) (rev content).

(** The key of a result, and the stored results split by upload: those
    of one qualifier and server, and all others. *)
Definition result_key (r : QualifierResult.t) : string * Z * Z :=
  (QualifierResult.playerId r, QualifierResult.qualifierId r,
   QualifierResult.server r).

Definition resultsOfOtherUploads (qualifierId server : Z)
  (rows : list QualifierResult.t) : list QualifierResult.t :=
  filter
    (fun r =>
       negb ((QualifierResult.qualifierId r =? qualifierId)
             && (QualifierResult.server r =? server)))
    rows.

Definition qualifierExists (qualifierId : Z) (db : database.t) : Prop :=
  exists q, In q (database.qualifier db) /\ Qualifier.id q = qualifierId.

(** The entries of the scenario, ranked. *)
Definition scenario_P1 : LeaderboardEntry.t :=
  LeaderboardEntry.make true 50000 "P1" 7 1.
Definition scenario_P2 : LeaderboardEntry.t :=
  LeaderboardEntry.make false 15000 "P2" 7 2.
Definition scenario_P3 : LeaderboardEntry.t :=
  LeaderboardEntry.make false 7500 "P3" 7 3.

(** The example database with two players, and an upload of two rows. *)
Definition example_world : fullDatabase.t :=
  fullDatabase.make example_db
    [ Player.make "Anna" "P1" "Europe"; Player.make "Ben" "P2" "Asia" ]%string.

Definition example_upload : list Columns.t :=
  [ Columns.make 1 9000 "Anna A." "P1" "Europe";
    Columns.make 7 7100 "Dora" "P4" "Africa" ]%string.


(** ** The map as a plain object

    [map] is a plain [{}], so [map[id]] also finds what the object
    inherits from [Object.prototype].  [inherited id] says that
    [Object.prototype] has a property named [id] while the loop runs;
    for an untouched [Object.prototype] these are the names of
    [Object_prototype_names].  For such an id that the map does not own,
    [map[id] ?? {...}] is the inherited value and no entry literal is
    made: the loop goes on with a value that is no [LeaderboardEntry].
    That is where [NotAnEntry] stops; what the source does from there (a
    total that is not a number, no own property under "__proto__",
    [createMany] refusing the data) is not modelled.  [accumulate] and
    what follows it describe the runs in which no player id is an
    inherited name. *)

Definition Object_prototype_names : list string :=
  [ "constructor"; "__defineGetter__"; "__defineSetter__"; "hasOwnProperty";
    "__lookupGetter__"; "__lookupSetter__"; "isPrototypeOf";
    "propertyIsEnumerable"; "toString"; "valueOf"; "__proto__";
    "toLocaleString" ]%string.

Definition inherited_from_Object_prototype (id : string) : bool :=
  existsb (String.eqb id) Object_prototype_names.

Inductive grouping : Type :=
| Entries (map : entry_store)
| NotAnEntry (id : string).

(** One iteration of the first loop on a plain object. *)
Definition accumulate_plain (inherited : string -> bool) (leaderboardId : Z)
  (g : grouping) (result : QualifierResult.t) : grouping :=
  match g with
  | NotAnEntry id => NotAnEntry id
  | Entries map =>
      let id := QualifierResult.playerId result in
      match js_get id map with
      | Some _ => Entries (accumulate leaderboardId map result)
      | None =>
          if inherited id then NotAnEntry id
          else Entries (accumulate leaderboardId map result)
      end
  end.

Definition groupByPlayer_plain (inherited : string -> bool)
  (leaderboardId : Z) (allResultsOfCup : list QualifierResult.t) : grouping :=
  fold_left (accumulate_plain inherited leaderboardId) allResultsOfCup
    (Entries []).

(** What [createMany] is given, when every value of the map is an
    entry. *)
Definition leaderboardEntries_plain (inherited : string -> bool)
  (leaderboardId : Z) (allResultsOfCup : list QualifierResult.t)
  : option (list LeaderboardEntry.t) :=
  match groupByPlayer_plain inherited leaderboardId allResultsOfCup with
  | Entries map =>
      Some (js_values (assignRanks map (sortLeaderboard map (js_keys map))))
  | NotAnEntry _ => None
  end.

(** A stand-in for Joi's verdict in the examples: it refuses what lines
    193 to 196 of [admin.ts] visibly refuse, an upload without rows and a
    server below 1; the messages are placeholders. *)
Definition example_dataSchema (server : Z) (data : list Columns.t)
  : option string :=
  match data with
  | [] => Some "data must contain at least 1 items"%string
  | _ :: _ =>
      if server <? 1
      then Some "server must be greater than or equal to 1"%string
      else None
  end.

(** * Proofs *)

(** ** Scoring *)

Ltac unfold_scoring :=
  unfold getPointsByResult, isQualified, points_tier,
    POINT_LIMIT_SERVER_ONE, POINT_LIMIT_SERVER_TWO in *.

(** Turns every boolean comparison of the goal into a case split with
    the corresponding arithmetic fact in the context. *)
Ltac split_tests :=
  repeat match goal with
    | |- context [?a =? ?b] => destruct (Z.eqb_spec a b)
    | |- context [?a >=? ?b] =>
        rewrite (Z.geb_leb a b); destruct (Z.leb_spec b a)
    | |- context [?a <=? ?b] => destruct (Z.leb_spec a b)
    end;
  simpl.

Lemma getPointsByResult_award_table (r : QualifierResult.t) :
  QualifierResult.server r = 1 \/ QualifierResult.server r = 2 ->
  award_table r (getPointsByResult r).
Proof.
  intros Hs. unfold_scoring. split_tests; try lia;
    solve [constructor; lia].
Qed.

Lemma award_table_getPointsByResult (r : QualifierResult.t) (v : Z) :
  award_table r v -> getPointsByResult r = v.
Proof.
  intros H. unfold_scoring. destruct H; split_tests; lia.
Qed.

Lemma award_table_server (r : QualifierResult.t) (v : Z) :
  award_table r v ->
  QualifierResult.server r = 1 \/ QualifierResult.server r = 2.
Proof. intros H; destruct H; auto. Qed.

Lemma isQualified_points (r : QualifierResult.t) :
  isQualified r = true -> getPointsByResult r = 50000.
Proof.
  unfold_scoring. split_tests; simpl; intros; try discriminate; lia.
Qed.

Lemma getPointsByResult_nonneg (r : QualifierResult.t) :
  QualifierResult.points r >= 0 -> getPointsByResult r >= 0.
Proof.
  intros H. unfold_scoring. split_tests; lia.
Qed.

(** C4: for a result of server 1 or 2, with any position and any raw
    points, [getPointsByResult] returns exactly what the award table of
    the specification gives (the table relates the result to its value
    and to no other); and a result whose position is 0 or negative is
    scored by the points-based tier of its server. *)
Theorem C4_getPointsByResult_table :
  forall (r : QualifierResult.t),
    (forall v, award_table r v <->
               (QualifierResult.server r = 1 \/ QualifierResult.server r = 2)
               /\ getPointsByResult r = v)
    /\ (QualifierResult.position r <= 0 ->
        (QualifierResult.server r = 1 ->
         getPointsByResult r = points_tier 6969 7500 r)
        /\ (QualifierResult.server r = 2 ->
            getPointsByResult r = points_tier 4500 5000 r)).
Proof.
  intros r. split.
  - intros v. split.
    + intros H. split.
      * exact (award_table_server H).
      * exact (award_table_getPointsByResult H).
    + intros [Hs Hv]. subst v. now apply getPointsByResult_award_table.
  - intros Hp. split; intros Hs; unfold_scoring; rewrite Hs; simpl;
      split_tests; lia.
Qed.

(** C5: [isQualified] holds exactly for the results of server 1 with a
    position from 1 to 3; a result of server 2 never qualifies. *)
Theorem C5_isQualified_iff :
  forall (r : QualifierResult.t),
    (isQualified r = true <->
     QualifierResult.server r = 1 /\ 1 <= QualifierResult.position r <= 3)
    /\ (QualifierResult.server r = 2 -> isQualified r = false).
Proof.
  intros r. unfold_scoring. split.
  - split_tests; simpl; split; intros Hq; try discriminate; try lia; auto.
  - intros Hs. rewrite Hs. simpl. now rewrite !andb_false_r.
Qed.

(** C6: a result whose server is neither 1 nor 2 is awarded 0 points and
    does not qualify, whatever its position and raw points; both
    functions are total, so no such result raises an error. *)
Theorem C6_unrecognized_server :
  forall (r : QualifierResult.t),
    QualifierResult.server r <> 1 ->
    QualifierResult.server r <> 2 ->
    getPointsByResult r = 0 /\ isQualified r = false.
Proof.
  intros r H1 H2. unfold_scoring.
  destruct (Z.eqb_spec (QualifierResult.server r) 1); [contradiction|].
  destruct (Z.eqb_spec (QualifierResult.server r) 2); [contradiction|].
  split; [reflexivity | now rewrite andb_false_r].
Qed.

(** ** The map: lookup, assignment and enumeration order *)

Section JSObjectFacts.
Variable V : Type.
Implicit Types (o : object V) (k key : string) (v w : V).

Lemma js_get_None_keys key o :
  js_get key o = None <-> ~ In key (js_keys o).
Proof.
  induction o as [|[k w] o IH]; simpl.
  - tauto.
  - destruct (String.eqb_spec key k) as [->|Hne].
    + split; [discriminate | intros H; exfalso; apply H; now left].
    + rewrite IH. split; intros H; [intros [E|I]|]; auto; congruence.
Qed.

Lemma js_get_Some_keys key o v :
  js_get key o = Some v -> In key (js_keys o).
Proof.
  intros H. destruct (in_dec string_dec key (js_keys o)) as [I|N]; auto.
  apply js_get_None_keys in N. congruence.
Qed.

Lemma js_keys_get key o :
  In key (js_keys o) -> exists v, js_get key o = Some v.
Proof.
  intros I. destruct (js_get key o) as [v|] eqn:E; eauto.
  apply js_get_None_keys in E. contradiction.
Qed.

Lemma js_keys_replace key v o :
  js_keys (js_replace key v o) = js_keys o.
Proof.
  induction o as [|[k w] o IH]; simpl; auto.
  destruct (String.eqb_spec key k); simpl; congruence.
Qed.

Lemma js_get_replace key v o k :
  js_get k (js_replace key v o) =
  if String.eqb k key
  then match js_get key o with Some _ => Some v | None => None end
  else js_get k o.
Proof.
  induction o as [|[k0 w] o IH]; simpl.
  - now destruct (String.eqb k key).
  - destruct (String.eqb_spec key k0) as [->|Hne]; simpl.
    + destruct (String.eqb_spec k k0); auto.
    + rewrite IH. destruct (String.eqb_spec k k0) as [->|Hne'].
      * destruct (String.eqb_spec k0 key); congruence.
      * reflexivity.
Qed.

Lemma js_insert_index_split n key v o :
  exists o1 o2, o = o1 ++ o2 /\ js_insert_index n key v o = o1 ++ (key, v) :: o2.
Proof.
  induction o as [|[k w] o IH]; simpl.
  - exists [], []. auto.
  - destruct (array_index k) as [m|].
    + destruct (m <? n)%N.
      * destruct IH as (o1 & o2 & E1 & E2).
        exists ((k, w) :: o1), o2. simpl. split; congruence.
      * exists [], ((k, w) :: o). auto.
    + exists [], ((k, w) :: o). auto.
Qed.

Lemma js_get_app key o1 o2 :
  js_get key (o1 ++ o2) =
  match js_get key o1 with Some v => Some v | None => js_get key o2 end.
Proof.
  induction o1 as [|[k w] o1 IH]; simpl; auto.
  destruct (String.eqb key k); auto.
Qed.

(** Where a new key is placed: somewhere in the list, which is
    otherwise left as it is. *)
Lemma js_set_new_split key v o :
  js_get key o = None ->
  exists o1 o2, o = o1 ++ o2 /\ js_set key v o = o1 ++ (key, v) :: o2.
Proof.
  intros E. unfold js_set. rewrite E.
  destruct (array_index key) as [n|].
  - apply js_insert_index_split.
  - exists o, []. split; [now rewrite app_nil_r | reflexivity].
Qed.

Lemma js_get_set key v o k :
  js_get k (js_set key v o) = if String.eqb k key then Some v else js_get k o.
Proof.
  destruct (js_get key o) as [w|] eqn:E.
  - unfold js_set. rewrite E, js_get_replace, E. reflexivity.
  - destruct (@js_set_new_split key v o E) as (o1 & o2 & E1 & E2).
    rewrite E2. subst o. rewrite js_get_app in E. rewrite !js_get_app. simpl.
    destruct (String.eqb_spec k key) as [->|Hne].
    + destruct (js_get key o1); [discriminate | reflexivity].
    + reflexivity.
Qed.

Lemma js_keys_set_old key v o w :
  js_get key o = Some w -> js_keys (js_set key v o) = js_keys o.
Proof.
  intros E. unfold js_set. rewrite E. apply js_keys_replace.
Qed.

Lemma js_keys_set_new key v o :
  js_get key o = None -> Permutation (js_keys (js_set key v o)) (key :: js_keys o).
Proof.
  intros E. destruct (@js_set_new_split key v o E) as (o1 & o2 & E1 & E2).
  rewrite E2. subst o. unfold js_keys. rewrite !map_app. simpl.
  symmetry. apply Permutation_middle.
Qed.

Lemma js_keys_set_NoDup key v o :
  NoDup (js_keys o) -> NoDup (js_keys (js_set key v o)).
Proof.
  intros ND. destruct (js_get key o) as [w|] eqn:E.
  - now rewrite (@js_keys_set_old key v o w E).
  - eapply Permutation_NoDup.
    + symmetry. apply js_keys_set_new. exact E.
    + constructor; auto. now apply js_get_None_keys.
Qed.

(** [Object.values] lists the values that the keys look up. *)
Lemma js_values_keys o (d : string -> V) :
  NoDup (js_keys o) ->
  js_values o =
  map (fun k => match js_get k o with Some v => v | None => d k end)
      (js_keys o).
Proof.
  unfold js_values, js_keys.
  induction o as [|[k w] o IH]; simpl; auto.
  intros ND. inversion ND as [|? ? Hnot ND']; subst.
  rewrite String.eqb_refl. f_equal.
  rewrite (IH ND').
  apply map_ext_in. intros a Ha.
  destruct (String.eqb_spec a k) as [->|]; [contradiction | reflexivity].
Qed.

End JSObjectFacts.

(** ** Sorting by a key, descending *)

Section SortFacts.
Variable A : Type.
Variable key : A -> Z.

Let descending (a b : A) : Z := key b - key a.
Let ge_key (a b : A) : Prop := key a >= key b.

Lemma sort_insert_perm (compareFn : A -> A -> Z) (x : A) (l : list A) :
  Permutation (sort_insert compareFn x l) (x :: l).
Proof.
  induction l as [|y l IH]; simpl; auto.
  destruct (compareFn x y <=? 0); auto.
  rewrite IH. apply perm_swap.
Qed.

Lemma js_sort_perm (compareFn : A -> A -> Z) (l : list A) :
  Permutation (js_sort compareFn l) l.
Proof.
  induction l as [|x l IH]; simpl; auto.
  rewrite sort_insert_perm. now constructor.
Qed.

Lemma sort_insert_sorted (x : A) (l : list A) :
  StronglySorted ge_key l ->
  StronglySorted ge_key (sort_insert descending x l).
Proof.
  induction 1 as [|y l Hs IH Hy]; simpl.
  - repeat constructor.
  - unfold descending at 1. destruct (Z.leb_spec (key y - key x) 0).
    + constructor; [now constructor|].
      constructor; [unfold ge_key; lia|].
      eapply Forall_impl; [|exact Hy]. unfold ge_key. intros; lia.
    + constructor; auto.
      eapply Permutation_Forall.
      * symmetry. apply sort_insert_perm.
      * constructor; [unfold ge_key; lia | exact Hy].
Qed.

Lemma js_sort_sorted (l : list A) :
  StronglySorted ge_key (js_sort descending l).
Proof.
  induction l; simpl; [constructor | now apply sort_insert_sorted].
Qed.

(** Stability: the elements of any one key value keep their order. *)
Lemma sort_insert_stable (v : Z) (x : A) (l : list A) :
  filter (fun a => key a =? v) (sort_insert descending x l) =
  filter (fun a => key a =? v) (x :: l).
Proof.
  induction l as [|y l IH]; simpl; auto.
  unfold descending at 1. destruct (Z.leb_spec (key y - key x) 0); auto.
  simpl in *. rewrite IH.
  destruct (Z.eqb_spec (key x) v), (Z.eqb_spec (key y) v); auto; lia.
Qed.

Lemma js_sort_stable (v : Z) (l : list A) :
  filter (fun a => key a =? v) (js_sort descending l) =
  filter (fun a => key a =? v) l.
Proof.
  induction l as [|x l IH]; simpl; auto.
  rewrite sort_insert_stable. simpl. now rewrite IH.
Qed.

End SortFacts.

(** ** Grouping by player *)

Lemma accumulate_absorb leaderboardId map result :
  accumulate leaderboardId map result =
  js_set (QualifierResult.playerId result)
    (absorb (or_fresh leaderboardId (QualifierResult.playerId result)
               (js_get (QualifierResult.playerId result) map)) result)
    map.
Proof. reflexivity. Qed.

Lemma js_get_accumulate leaderboardId map result player :
  js_get player (accumulate leaderboardId map result) =
  if String.eqb (QualifierResult.playerId result) player
  then Some (absorb (or_fresh leaderboardId player (js_get player map)) result)
  else js_get player map.
Proof.
  rewrite accumulate_absorb, js_get_set.
  destruct (String.eqb_spec player (QualifierResult.playerId result)) as [->|Hne].
  - now rewrite String.eqb_refl.
  - destruct (String.eqb_spec (QualifierResult.playerId result) player);
      congruence.
Qed.

Lemma fold_absorb (mine : list QualifierResult.t) (e : LeaderboardEntry.t) :
  fold_left absorb mine e =
  LeaderboardEntry.make
    (LeaderboardEntry.qualified e || anyQualifying mine)
    (LeaderboardEntry.points e + totalPoints mine)
    (LeaderboardEntry.playerId e)
    (LeaderboardEntry.leaderboardId e)
    (LeaderboardEntry.position e).
Proof.
  revert e. induction mine as [|r mine IH]; intros [q pts pid lb pos]; simpl.
  - now rewrite orb_false_r, Z.add_0_r.
  - rewrite IH. unfold absorb, totalPoints, anyQualifying. simpl.
    destruct (isQualified r); simpl; f_equal;
      try lia; now rewrite ?orb_true_r.
Qed.

Lemma js_get_fold_accumulate leaderboardId results map player :
  js_get player (fold_left (accumulate leaderboardId) results map) =
  match resultsOf player results with
  | [] => js_get player map
  | mine =>
      Some (fold_left absorb mine
              (or_fresh leaderboardId player (js_get player map)))
  end.
Proof.
  revert map. induction results as [|r results IH]; intros map; simpl; auto.
  rewrite IH, js_get_accumulate.
  destruct (String.eqb (QualifierResult.playerId r) player); simpl.
  - now destruct (resultsOf player results).
  - reflexivity.
Qed.

(** The entry of a player after the first loop. *)
Lemma js_get_groupByPlayer leaderboardId results player :
  js_get player (groupByPlayer leaderboardId results) =
  match resultsOf player results with
  | [] => None
  | mine => Some (grouped_entry leaderboardId player mine)
  end.
Proof.
  unfold groupByPlayer. rewrite js_get_fold_accumulate.
  destruct (resultsOf player results) as [|r mine]; [reflexivity|].
  rewrite fold_absorb. reflexivity.
Qed.

Lemma groupByPlayer_NoDup leaderboardId results :
  NoDup (js_keys (groupByPlayer leaderboardId results)).
Proof.
  unfold groupByPlayer.
  assert (G : forall map, NoDup (js_keys map) ->
            NoDup (js_keys (fold_left (accumulate leaderboardId) results map))).
  { induction results as [|r results IH]; intros map ND; simpl; auto.
    apply IH. rewrite accumulate_absorb. now apply js_keys_set_NoDup. }
  apply G. constructor.
Qed.

Lemma groupByPlayer_playerId leaderboardId results player e :
  js_get player (groupByPlayer leaderboardId results) = Some e ->
  LeaderboardEntry.playerId e = player.
Proof.
  rewrite js_get_groupByPlayer.
  destruct (resultsOf player results); [discriminate|].
  intros [= <-]. reflexivity.
Qed.

(** ** The ranking loop, read through the references

    The loop of the source updates the counters and then writes the
    rank; the rule of the specification names the rank and the counters
    case by case.  They agree on every entry. *)

Lemma advance_spec_rank_rule (st : rank_state) (e : LeaderboardEntry.t) :
  spec_rank_rule st e =
  (fst (advance st (LeaderboardEntry.qualified e) (LeaderboardEntry.points e)),
   mk_rank_state
     (fst (advance st (LeaderboardEntry.qualified e) (LeaderboardEntry.points e)))
     (Some (LeaderboardEntry.points e))
     (snd (advance st (LeaderboardEntry.qualified e) (LeaderboardEntry.points e)))).
Proof.
  unfold spec_rank_rule, advance.
  destruct (LeaderboardEntry.qualified e); [reflexivity|].
  destruct (strict_neq _ _); reflexivity.
Qed.

Lemma rank_step_present st map ref e :
  js_get ref map = Some e ->
  rank_step (st, map) ref =
  (snd (spec_rank_rule st e),
   js_replace ref
     (LeaderboardEntry.set_position e (fst (spec_rank_rule st e))) map).
Proof.
  intros E. unfold rank_step. rewrite E, advance_spec_rank_rule.
  now destruct (advance _ _ _).
Qed.

Lemma rank_step_absent st map ref :
  js_get ref map = None -> rank_step (st, map) ref = (st, map).
Proof. intros E. unfold rank_step. now rewrite E. Qed.

Lemma rank_step_keys acc ref :
  js_keys (snd (rank_step acc ref)) = js_keys (snd acc).
Proof.
  destruct acc as [st map]. unfold rank_step.
  destruct (js_get ref map) as [e|]; [|reflexivity].
  destruct (advance _ _ _). simpl. apply js_keys_replace.
Qed.

Lemma rank_loop_keys refs acc :
  js_keys (snd (fold_left rank_step refs acc)) = js_keys (snd acc).
Proof.
  revert acc. induction refs as [|ref refs IH]; intros acc; simpl; auto.
  now rewrite IH, rank_step_keys.
Qed.

Lemma rank_step_other acc ref k :
  k <> ref -> js_get k (snd (rank_step acc ref)) = js_get k (snd acc).
Proof.
  intros Hne. destruct acc as [st map]. unfold rank_step.
  destruct (js_get ref map) as [e|]; [|reflexivity].
  destruct (advance _ _ _). simpl. rewrite js_get_replace.
  destruct (String.eqb_spec k ref); [contradiction | reflexivity].
Qed.

Lemma rank_loop_other refs acc k :
  ~ In k refs -> js_get k (snd (fold_left rank_step refs acc)) = js_get k (snd acc).
Proof.
  revert acc. induction refs as [|ref refs IH]; intros acc Hk; simpl; auto.
  rewrite IH by (intros I; apply Hk; now right).
  apply rank_step_other. intros ->. apply Hk. now left.
Qed.

(** The loop writes nothing but [position]. *)
Lemma rank_loop_position_only refs st map k :
  match js_get k map with
  | None => js_get k (snd (fold_left rank_step refs (st, map))) = None
  | Some e =>
      exists rank,
        js_get k (snd (fold_left rank_step refs (st, map))) =
        Some (LeaderboardEntry.set_position e rank)
  end.
Proof.
  revert st map. induction refs as [|ref refs IH]; intros st map;
    cbn [fold_left].
  - cbn [snd]. destruct (js_get k map) as [[q p i l pos]|]; [|reflexivity].
    exists pos. reflexivity.
  - destruct (js_get ref map) as [e|] eqn:E.
    + rewrite (@rank_step_present st map ref e E).
      specialize (IH (snd (spec_rank_rule st e))
        (js_replace ref
           (LeaderboardEntry.set_position e (fst (spec_rank_rule st e))) map)).
      rewrite js_get_replace, E in IH.
      destruct (String.eqb_spec k ref) as [->|Hne].
      * rewrite E. destruct IH as [rank IH]. exists rank. exact IH.
      * exact IH.
    + rewrite (@rank_step_absent st map ref E). apply IH.
Qed.

(** The array after the loop is the array before it with the ranks of
    the rule, provided the references are distinct and none dangles. *)
Lemma rank_loop_spec refs st map :
  NoDup refs ->
  (forall ref, In ref refs -> In ref (js_keys map)) ->
  List.map (deref (snd (fold_left rank_step refs (st, map)))) refs =
  spec_rank_pass st (List.map (deref map) refs).
Proof.
  revert st map. induction refs as [|ref refs IH]; intros st map ND Hin;
    cbn [fold_left List.map].
  - reflexivity.
  - inversion ND as [|? ? Hnot ND']; subst.
    destruct (@js_keys_get _ ref map (Hin ref (or_introl eq_refl))) as [e E].
    rewrite (@rank_step_present st map ref e E).
    set (rank := fst (spec_rank_rule st e)).
    set (st1 := snd (spec_rank_rule st e)).
    set (map1 := js_replace ref (LeaderboardEntry.set_position e rank) map).
    assert (D : deref map ref = e) by (unfold deref; now rewrite E).
    rewrite D. cbn [spec_rank_pass].
    destruct (spec_rank_rule st e) as [rank' st1'] eqn:R.
    simpl in rank, st1. subst rank st1. f_equal.
    + unfold deref. rewrite rank_loop_other by exact Hnot. cbn [snd].
      unfold map1. rewrite js_get_replace, String.eqb_refl, E. reflexivity.
    + rewrite IH; auto.
      * f_equal. apply map_ext_in. intros k Hk. unfold deref, map1.
        rewrite js_get_replace.
        destruct (String.eqb_spec k ref) as [->|]; [contradiction | reflexivity].
      * intros k Hk. unfold map1. rewrite js_keys_replace.
        apply Hin. now right.
Qed.

(** ** The ranking rule on sequences *)

Lemma spec_rank_rule_reads (st : rank_state) (e : LeaderboardEntry.t) (rank : Z) :
  spec_rank_rule st (LeaderboardEntry.set_position e rank) = spec_rank_rule st e.
Proof. reflexivity. Qed.

Lemma spec_rank_pass_app st l1 l2 :
  spec_rank_pass st (l1 ++ l2) =
  spec_rank_pass st l1 ++ spec_rank_pass (spec_rank_state st l1) l2.
Proof.
  revert st. induction l1 as [|e l1 IH]; intros st; simpl; auto.
  unfold spec_rank_state in *. simpl.
  destruct (spec_rank_rule st e) as [rank st1]. simpl. now rewrite IH.
Qed.

Lemma spec_rank_state_app st l1 l2 :
  spec_rank_state st (l1 ++ l2) = spec_rank_state (spec_rank_state st l1) l2.
Proof. unfold spec_rank_state. apply fold_left_app. Qed.

Lemma spec_rank_pass_length st l :
  List.length (spec_rank_pass st l) = List.length l.
Proof.
  revert st. induction l as [|e l IH]; intros st; simpl; auto.
  destruct (spec_rank_rule st e). simpl. now rewrite IH.
Qed.

Lemma spec_rank_pass_points st l :
  map LeaderboardEntry.points (spec_rank_pass st l) =
  map LeaderboardEntry.points l.
Proof.
  revert st. induction l as [|e l IH]; intros st; simpl; auto.
  destruct (spec_rank_rule st e). simpl. now rewrite IH.
Qed.

Lemma spec_rank_pass_qualified st l :
  map LeaderboardEntry.qualified (spec_rank_pass st l) =
  map LeaderboardEntry.qualified l.
Proof.
  revert st. induction l as [|e l IH]; intros st; simpl; auto.
  destruct (spec_rank_rule st e). simpl. now rewrite IH.
Qed.

(** The rule does not read [position]: run over its own output it
    assigns the same ranks again. *)
Lemma spec_rank_pass_again st l :
  spec_rank_pass st (spec_rank_pass st l) = spec_rank_pass st l.
Proof.
  revert st. induction l as [|e l IH]; intros st; simpl; auto.
  destruct (spec_rank_rule st e) as [rank st1] eqn:R. simpl.
  rewrite spec_rank_rule_reads, R, IH. reflexivity.
Qed.

Lemma spec_rank_rule_bounds st e :
  0 <= rankCount st ->
  currentRank st <= fst (spec_rank_rule st e)
  /\ currentRank (snd (spec_rank_rule st e)) = fst (spec_rank_rule st e)
  /\ 0 <= rankCount (snd (spec_rank_rule st e)).
Proof.
  intros H. unfold spec_rank_rule.
  destruct (LeaderboardEntry.qualified e); simpl; [lia|].
  destruct (strict_neq _ _); simpl; lia.
Qed.

(** Ranks never go down: each is at least the running [currentRank],
    and at most every later one. *)
Lemma spec_rank_pass_monotone st l :
  0 <= rankCount st ->
  StronglySorted Z.le
    (currentRank st :: map LeaderboardEntry.position (spec_rank_pass st l)).
Proof.
  revert st. induction l as [|e l IH]; intros st H; simpl.
  - repeat constructor.
  - destruct (@spec_rank_rule_bounds st e H) as (B1 & B2 & B3).
    destruct (spec_rank_rule st e) as [rank st1]. simpl in *.
    specialize (IH st1 B3). rewrite B2 in IH.
    inversion IH as [|? ? Hs Hall]; subst.
    constructor; [exact IH|].
    constructor; [exact B1|].
    eapply Forall_impl; [|exact Hall]. intros; lia.
Qed.

Lemma StronglySorted_adjacent (A : Type) (R : A -> A -> Prop)
  (pre post : list A) (a b : A) :
  StronglySorted R (pre ++ a :: b :: post) -> R a b.
Proof.
  induction pre as [|x pre IH]; simpl; intros H;
    inversion H as [|? ? Hs Hall]; subst.
  - inversion Hall; auto.
  - auto.
Qed.

(** A block of qualified entries shares the running rank and counts
    itself into [rankCount]. *)
Lemma spec_rank_pass_qualified_block st qs :
  Forall (fun e => LeaderboardEntry.qualified e = true) qs ->
  Forall (fun e => LeaderboardEntry.position e = currentRank st)
    (spec_rank_pass st qs)
  /\ currentRank (spec_rank_state st qs) = currentRank st
  /\ rankCount (spec_rank_state st qs) =
     rankCount st + Z.of_nat (List.length qs).
Proof.
  revert st. induction qs as [|e qs IH]; intros st H.
  - simpl. repeat split; [constructor | lia].
  - inversion H as [|? ? He Hqs]; subst.
    assert (R : spec_rank_rule st e =
                (currentRank st,
                 mk_rank_state (currentRank st)
                   (Some (LeaderboardEntry.points e)) (rankCount st + 1)))
      by (unfold spec_rank_rule; now rewrite He).
    unfold spec_rank_state. cbn [spec_rank_pass fold_left List.length].
    rewrite R. cbn [snd].
    destruct (IH (mk_rank_state (currentRank st)
                    (Some (LeaderboardEntry.points e)) (rankCount st + 1)) Hqs)
      as (I1 & I2 & I3).
    unfold spec_rank_state in I2, I3. cbn [currentRank rankCount] in *.
    repeat split; [constructor; [reflexivity | exact I1] | exact I2 | lia].
Qed.

Lemma spec_rank_state_previous st l x :
  previousAmount (spec_rank_state st (l ++ [x])) =
  Some (LeaderboardEntry.points x).
Proof.
  rewrite spec_rank_state_app. unfold spec_rank_state at 1. simpl.
  unfold spec_rank_rule.
  destruct (LeaderboardEntry.qualified x); [reflexivity|].
  destruct (strict_neq _ _); reflexivity.
Qed.

(** ** The aggregation as a whole *)

Lemma StronglySorted_map (A B : Type) (f : A -> B) (R : B -> B -> Prop)
  (l : list A) :
  StronglySorted (fun a b => R (f a) (f b)) l <-> StronglySorted R (map f l).
Proof.
  induction l as [|x l IH]; simpl.
  - split; constructor.
  - split; intros H; inversion H as [|? ? Hs Hall]; subst; constructor;
      try (now apply IH).
    + rewrite Forall_forall in *. intros y Hy.
      apply in_map_iff in Hy. destruct Hy as (a & <- & Ha). now apply Hall.
    + rewrite Forall_forall in *. intros a Ha.
      apply Hall. now apply in_map.
Qed.

Lemma StronglySorted_impl (A : Type) (R R' : A -> A -> Prop) (l : list A) :
  (forall a b, R a b -> R' a b) -> StronglySorted R l -> StronglySorted R' l.
Proof.
  intros HR. induction 1 as [|x l Hs IH Hall]; constructor; auto.
  eapply Forall_impl; [|exact Hall]. auto.
Qed.

Lemma points_deref map ref :
  LeaderboardEntry.points (deref map ref) = points_at map ref.
Proof. unfold deref, points_at. now destruct (js_get ref map). Qed.

Lemma sortLeaderboard_perm map refs :
  Permutation (sortLeaderboard map refs) refs.
Proof. apply js_sort_perm. Qed.

Lemma sortLeaderboard_NoDup leaderboardId results :
  NoDup (sortLeaderboard (groupByPlayer leaderboardId results)
           (js_keys (groupByPlayer leaderboardId results))).
Proof.
  eapply Permutation_NoDup.
  - symmetry. apply sortLeaderboard_perm.
  - apply groupByPlayer_NoDup.
Qed.

(** The sorted array after the ranking loop: the grouped entries in
    sorted order, ranked by the rule from the initial counters. *)
Lemma sortedLeaderboard_spec leaderboardId results :
  sortedLeaderboard leaderboardId results =
  spec_rank_pass initial_rank_state
    (map (deref (groupByPlayer leaderboardId results))
       (sortLeaderboard (groupByPlayer leaderboardId results)
          (js_keys (groupByPlayer leaderboardId results)))).
Proof.
  unfold sortedLeaderboard, computeLeaderboard, assignRanks.
  apply rank_loop_spec.
  - apply sortLeaderboard_NoDup.
  - intros ref Hin. eapply Permutation_in; [|exact Hin].
    apply sortLeaderboard_perm.
Qed.

Lemma sortedLeaderboard_perm leaderboardId results :
  Permutation (sortedLeaderboard leaderboardId results)
    (leaderboardEntries leaderboardId results).
Proof.
  unfold sortedLeaderboard, leaderboardEntries, computeLeaderboard.
  cbn [fst].
  set (map0 := groupByPlayer leaderboardId results).
  set (refs := sortLeaderboard map0 (js_keys map0)).
  assert (K : js_keys (assignRanks map0 refs) = js_keys map0)
    by (unfold assignRanks; now rewrite rank_loop_keys).
  rewrite (@js_values_keys _ (assignRanks map0 refs)
             (fun k => fresh_entry k 0)).
  - rewrite K. apply Permutation_map. apply sortLeaderboard_perm.
  - rewrite K. apply groupByPlayer_NoDup.
Qed.

Lemma sortedLeaderboard_sorted leaderboardId results :
  StronglySorted points_descending (sortedLeaderboard leaderboardId results).
Proof.
  unfold points_descending.
  apply (proj2 (StronglySorted_map LeaderboardEntry.points Z.ge _)).
  rewrite sortedLeaderboard_spec, spec_rank_pass_points, map_map.
  set (map0 := groupByPlayer leaderboardId results).
  apply (proj1 (StronglySorted_map
                  (fun x => LeaderboardEntry.points (deref map0 x)) Z.ge _)).
  eapply StronglySorted_impl; [|apply (js_sort_sorted (points_at map0))].
  intros a b. cbv beta. now rewrite !points_deref.
Qed.

Lemma entriesOf_js_values (map : entry_store) (player : string) :
  NoDup (js_keys map) ->
  keyed_by_player map ->
  entriesOf player (js_values map) =
  match js_get player map with Some e => [e] | None => [] end.
Proof.
  unfold keyed_by_player.
  induction map as [|[k e] map IH]; intros ND K; simpl; auto.
  inversion ND as [|? ? Hnot ND']; subst.
  assert (Ke : LeaderboardEntry.playerId e = k)
    by (apply K; simpl; now rewrite String.eqb_refl).
  assert (K' : forall k' e', js_get k' map = Some e' ->
                             LeaderboardEntry.playerId e' = k').
  { intros k' e' E. apply K. simpl.
    destruct (String.eqb_spec k' k) as [->|]; auto.
    apply js_get_Some_keys in E. contradiction. }
  unfold entriesOf in *. unfold js_values in *. rewrite (IH ND' K'), Ke.
  destruct (String.eqb_spec k player) as [->|Hne].
  - rewrite String.eqb_refl.
    apply js_get_None_keys in Hnot. now rewrite Hnot.
  - destruct (String.eqb_spec player k); [congruence | reflexivity].
Qed.

Lemma js_values_playerId (map : entry_store) :
  keyed_by_player map -> NoDup (js_keys map) ->
  List.map LeaderboardEntry.playerId (js_values map) = js_keys map.
Proof.
  unfold keyed_by_player, js_values, js_keys.
  induction map as [|[k e] map IH]; intros K ND; simpl; auto.
  inversion ND as [|? ? Hnot ND']; subst. f_equal.
  - apply K. simpl. now rewrite String.eqb_refl.
  - apply IH; auto. intros k' e' E. apply K. simpl.
    destruct (String.eqb_spec k' k) as [->|]; auto.
    apply js_get_Some_keys in E. contradiction.
Qed.

(** The entry of a player in the map that is written out. *)
Lemma js_get_computeLeaderboard leaderboardId results player :
  match resultsOf player results with
  | [] => js_get player (fst (computeLeaderboard leaderboardId results)) = None
  | mine =>
      exists rank,
        js_get player (fst (computeLeaderboard leaderboardId results)) =
        Some (LeaderboardEntry.make (anyQualifying mine) (totalPoints mine)
                player leaderboardId rank)
  end.
Proof.
  unfold computeLeaderboard, assignRanks. cbn [fst].
  set (map0 := groupByPlayer leaderboardId results).
  pose proof (rank_loop_position_only (sortLeaderboard map0 (js_keys map0))
                initial_rank_state map0 player) as P.
  unfold map0 in P at 1. rewrite js_get_groupByPlayer in P.
  destruct (resultsOf player results) as [|r mine]; exact P.
Qed.

Lemma computeLeaderboard_NoDup leaderboardId results :
  NoDup (js_keys (fst (computeLeaderboard leaderboardId results))).
Proof.
  unfold computeLeaderboard, assignRanks. cbn [fst].
  rewrite rank_loop_keys. apply groupByPlayer_NoDup.
Qed.

Lemma computeLeaderboard_keyed leaderboardId results :
  keyed_by_player (fst (computeLeaderboard leaderboardId results)).
Proof.
  intros k e E.
  pose proof (js_get_computeLeaderboard leaderboardId results k) as P.
  destruct (resultsOf k results); [congruence|].
  destruct P as [rank P]. rewrite P in E. now inversion E.
Qed.

(** One entry per player with results, none for any other player. *)
Lemma leaderboardEntries_player leaderboardId results player :
  match resultsOf player results with
  | [] => entriesOf player (leaderboardEntries leaderboardId results) = []
  | mine =>
      exists rank,
        entriesOf player (leaderboardEntries leaderboardId results) =
        [LeaderboardEntry.make (anyQualifying mine) (totalPoints mine)
           player leaderboardId rank]
  end.
Proof.
  unfold leaderboardEntries.
  rewrite entriesOf_js_values
    by (apply computeLeaderboard_NoDup || apply computeLeaderboard_keyed).
  pose proof (js_get_computeLeaderboard leaderboardId results player) as P.
  destruct (resultsOf player results) as [|r mine].
  - now rewrite P.
  - destruct P as [rank P]. exists rank. now rewrite P.
Qed.

(** Every written entry is the entry of its player. *)
Lemma leaderboardEntries_shape leaderboardId results e :
  In e (leaderboardEntries leaderboardId results) ->
  resultsOf (LeaderboardEntry.playerId e) results <> []
  /\ e = LeaderboardEntry.make
           (anyQualifying (resultsOf (LeaderboardEntry.playerId e) results))
           (totalPoints (resultsOf (LeaderboardEntry.playerId e) results))
           (LeaderboardEntry.playerId e) leaderboardId
           (LeaderboardEntry.position e).
Proof.
  intros Hin.
  assert (I : In e (entriesOf (LeaderboardEntry.playerId e)
                      (leaderboardEntries leaderboardId results))).
  { apply filter_In. split; auto. apply String.eqb_refl. }
  pose proof (leaderboardEntries_player leaderboardId results
                (LeaderboardEntry.playerId e)) as P.
  destruct (resultsOf (LeaderboardEntry.playerId e) results) as [|r mine].
  - rewrite P in I. contradiction.
  - destruct P as [rank P]. rewrite P in I. destruct I as [<-|[]].
    split; [discriminate | reflexivity].
Qed.

(** The written entries satisfy the primary key of [LeaderboardEntry]:
    their player ids are pairwise distinct. *)
Lemma leaderboardEntries_distinct_players leaderboardId results :
  NoDup (List.map LeaderboardEntry.playerId
           (leaderboardEntries leaderboardId results)).
Proof.
  unfold leaderboardEntries. rewrite js_values_playerId.
  - apply computeLeaderboard_NoDup.
  - apply computeLeaderboard_keyed.
  - apply computeLeaderboard_NoDup.
Qed.

(** ** The claims about the aggregation *)

Lemma totalPoints_nonneg (mine : list QualifierResult.t) :
  (forall r, In r mine -> QualifierResult.points r >= 0) ->
  totalPoints mine >= 0.
Proof.
  unfold totalPoints. induction mine as [|r mine IH]; intros H; simpl; [lia|].
  pose proof (getPointsByResult_nonneg r (H r (or_introl eq_refl))).
  assert (fold_right Z.add 0 (map getPointsByResult mine) >= 0)
    by (apply IH; intros; apply H; now right).
  lia.
Qed.

Lemma totalPoints_qualifying (mine : list QualifierResult.t) :
  (forall r, In r mine -> QualifierResult.points r >= 0) ->
  anyQualifying mine = true ->
  totalPoints mine >= 50000.
Proof.
  induction mine as [|r mine IH]; intros H Q; simpl in *; [discriminate|].
  assert (T : totalPoints mine >= 0)
    by (apply totalPoints_nonneg; intros; apply H; now right).
  change (getPointsByResult r + totalPoints mine >= 50000).
  destruct (isQualified r) eqn:E.
  - rewrite (isQualified_points r E). lia.
  - simpl in Q.
    pose proof (getPointsByResult_nonneg r (H r (or_introl eq_refl))).
    assert (totalPoints mine >= 50000)
      by (apply IH; auto; intros; apply H; now right).
    lia.
Qed.

(** C10: if no result has negative raw points, every written entry that
    is qualified has at least 50000 points; a qualifying result is
    awarded exactly 50000 and any result with non-negative raw points a
    non-negative amount. *)
Theorem C10_qualified_at_least_50000 :
  forall (leaderboardId : Z) (results : list QualifierResult.t),
    (forall r, In r results -> QualifierResult.points r >= 0) ->
    (forall e, In e (leaderboardEntries leaderboardId results) ->
               LeaderboardEntry.qualified e = true ->
               LeaderboardEntry.points e >= 50000)
    /\ (forall r, isQualified r = true -> getPointsByResult r = 50000)
    /\ (forall r, In r results -> getPointsByResult r >= 0).
Proof.
  intros leaderboardId results H. repeat split.
  - intros e Hin Q.
    destruct (leaderboardEntries_shape leaderboardId results e Hin) as [_ S].
    rewrite S in Q |- *. simpl in *.
    apply totalPoints_qualifying; auto.
    intros r Hr. apply H. unfold resultsOf in Hr.
    apply filter_In in Hr. tauto.
  - exact isQualified_points.
  - intros r Hr. apply getPointsByResult_nonneg. now apply H.
Qed.

(** C9: in the points-descending sequence that is ranked, the rank of
    an entry is at most the rank of the entry right after it. *)
Theorem C9_rank_monotone :
  forall (leaderboardId : Z) (results : list QualifierResult.t)
         (pre post : list LeaderboardEntry.t) (a b : LeaderboardEntry.t),
    sortedLeaderboard leaderboardId results = pre ++ a :: b :: post ->
    LeaderboardEntry.position a <= LeaderboardEntry.position b.
Proof.
  intros leaderboardId results pre post a b H.
  pose proof (spec_rank_pass_monotone initial_rank_state
    (map (deref (groupByPlayer leaderboardId results))
       (sortLeaderboard (groupByPlayer leaderboardId results)
          (js_keys (groupByPlayer leaderboardId results))))) as M.
  rewrite <- sortedLeaderboard_spec, H in M.
  specialize (M ltac:(simpl; lia)).
  inversion M as [|? ? Hs _]; subst.
  rewrite map_app in Hs. simpl in Hs.
  exact (StronglySorted_adjacent _ _ _ _ Hs).
Qed.

Lemma app_eq_split (A : Type) (l1 l1' l2 l2' : list A) :
  List.length l1 = List.length l1' ->
  l1 ++ l2 = l1' ++ l2' -> l1 = l1' /\ l2 = l2'.
Proof.
  revert l1'. induction l1 as [|x l1 IH]; intros [|y l1'] L E;
    simpl in *; try discriminate; auto.
  injection E as -> E. destruct (IH l1' ltac:(lia) E) as [-> ->]. auto.
Qed.

(** The ranked sequence carries the ranks of the rule: running the rule
    over it, from the initial counters, changes nothing. *)
Lemma sortedLeaderboard_fixed leaderboardId results :
  spec_rank_pass initial_rank_state (sortedLeaderboard leaderboardId results) =
  sortedLeaderboard leaderboardId results.
Proof. rewrite sortedLeaderboard_spec. apply spec_rank_pass_again. Qed.

Lemma spec_rank_pass_split st pre suf :
  spec_rank_pass st (pre ++ suf) = pre ++ suf ->
  spec_rank_pass st pre = pre
  /\ spec_rank_pass (spec_rank_state st pre) suf = suf.
Proof.
  rewrite spec_rank_pass_app. apply app_eq_split, spec_rank_pass_length.
Qed.

Lemma spec_rank_pass_head st e l :
  spec_rank_pass st (e :: l) = e :: l ->
  LeaderboardEntry.position e = fst (spec_rank_rule st e)
  /\ spec_rank_pass (snd (spec_rank_rule st e)) l = l.
Proof.
  simpl. destruct (spec_rank_rule st e) as [rank st1]. simpl.
  intros [= E1 E2]. rewrite <- E1 at 1. auto.
Qed.

(** The tie scenario: a non-qualified entry that opens a block, a second
    one with the same points, and a third with other points. *)
Lemma spec_rank_pass_tie st a b c post :
  LeaderboardEntry.qualified a = false ->
  LeaderboardEntry.qualified b = false ->
  LeaderboardEntry.qualified c = false ->
  strict_neq (previousAmount st) (LeaderboardEntry.points a) = true ->
  LeaderboardEntry.points a = LeaderboardEntry.points b ->
  LeaderboardEntry.points c <> LeaderboardEntry.points b ->
  spec_rank_pass st (a :: b :: c :: post) = a :: b :: c :: post ->
  LeaderboardEntry.position a = LeaderboardEntry.position b
  /\ LeaderboardEntry.position c = LeaderboardEntry.position b + 2.
Proof.
  intros Qa Qb Qc Sa Eab Ncb H.
  apply spec_rank_pass_head in H. destruct H as [Pa H].
  apply spec_rank_pass_head in H. destruct H as [Pb H].
  apply spec_rank_pass_head in H. destruct H as [Pc _].
  unfold spec_rank_rule in Pa, Pb, Pc.
  rewrite Qa, Sa in *. rewrite Qb in *. rewrite Qc in *.
  cbn [fst snd previousAmount currentRank rankCount strict_neq] in *.
  rewrite Eab, Z.eqb_refl in *.
  cbn [negb fst snd previousAmount currentRank rankCount strict_neq] in *.
  destruct (Z.eqb_spec (LeaderboardEntry.points b) (LeaderboardEntry.points c));
    [congruence|].
  cbn [negb fst snd previousAmount currentRank rankCount] in *. lia.
Qed.

(** C1: the sequence that is ranked holds the written entries in
    points-descending order, and its ranks are those of the rule of the
    specification run once over it from [currentRank] 1 and an undefined
    [previousPoints]: a qualified entry takes [currentRank] and counts
    into [rankCount] without a comparison; a non-qualified entry whose
    points differ from [previousPoints] moves [currentRank] on by
    [rankCount], resets [rankCount] to 1 and takes the new rank; a
    non-qualified entry with the previous points takes [currentRank] and
    counts into [rankCount].  With no qualified entry present, two
    entries that tie on their points share a rank and the next entry,
    with other points, is ranked 2 below them. *)
Theorem C1_ranking_rule :
  forall (leaderboardId : Z) (results : list QualifierResult.t),
    Permutation (sortedLeaderboard leaderboardId results)
      (leaderboardEntries leaderboardId results)
    /\ StronglySorted points_descending
         (sortedLeaderboard leaderboardId results)
    /\ (currentRank initial_rank_state = 1
        /\ previousAmount initial_rank_state = None)
    /\ spec_rank_pass initial_rank_state
         (sortedLeaderboard leaderboardId results) =
       sortedLeaderboard leaderboardId results
    /\ (forall pre a b c post,
          sortedLeaderboard leaderboardId results =
            pre ++ a :: b :: c :: post ->
          (forall e, In e (sortedLeaderboard leaderboardId results) ->
                     LeaderboardEntry.qualified e = false) ->
          (forall pre' x, pre = pre' ++ [x] ->
                          LeaderboardEntry.points x <>
                          LeaderboardEntry.points a) ->
          LeaderboardEntry.points a = LeaderboardEntry.points b ->
          LeaderboardEntry.points c <> LeaderboardEntry.points b ->
          LeaderboardEntry.position a = LeaderboardEntry.position b
          /\ LeaderboardEntry.position c = LeaderboardEntry.position b + 2).
Proof.
  intros leaderboardId results.
  split; [apply sortedLeaderboard_perm|].
  split; [apply sortedLeaderboard_sorted|].
  split; [split; reflexivity|].
  split; [apply sortedLeaderboard_fixed|].
  intros pre a b c post E NQ Hpre Eab Ncb.
  pose proof (sortedLeaderboard_fixed leaderboardId results) as F.
  rewrite E in F. apply spec_rank_pass_split in F. destruct F as [_ F].
  assert (I : forall e, In e (a :: b :: c :: post) ->
                        LeaderboardEntry.qualified e = false).
  { intros e He. apply NQ. rewrite E. apply in_or_app. now right. }
  apply (@spec_rank_pass_tie (spec_rank_state initial_rank_state pre)
           a b c post
           (I a ltac:(simpl; tauto)) (I b ltac:(simpl; tauto))
           (I c ltac:(simpl; tauto))); auto.
  destruct pre as [|x0 pre0] using rev_ind; [reflexivity|].
  rewrite spec_rank_state_previous. simpl.
  destruct (Z.eqb_spec (LeaderboardEntry.points x0) (LeaderboardEntry.points a))
    as [Ex|]; [|reflexivity].
  exfalso. exact (Hpre pre0 x0 eq_refl Ex).
Qed.

(** ** The qualified block *)

Lemma first_non_qualified_app qs ns :
  Forall (fun e => LeaderboardEntry.qualified e = true) qs ->
  first_non_qualified (qs ++ ns) = first_non_qualified ns.
Proof.
  unfold first_non_qualified.
  induction 1 as [|e qs He _ IH]; simpl; auto. now rewrite He.
Qed.

Lemma count_qualified_block qs ns :
  Forall (fun e => LeaderboardEntry.qualified e = true) qs ->
  Forall (fun e => LeaderboardEntry.qualified e = false) ns ->
  count_qualified (qs ++ ns) = Z.of_nat (List.length qs).
Proof.
  intros Hq Hn. unfold count_qualified. rewrite filter_app, length_app.
  assert (E1 : filter LeaderboardEntry.qualified qs = qs).
  { induction Hq as [|e qs He _ IH]; simpl; auto. now rewrite He, IH. }
  assert (E2 : filter LeaderboardEntry.qualified ns = []).
  { induction Hn as [|e ns He _ IH]; simpl; auto. now rewrite He. }
  rewrite E1, E2. simpl. f_equal. lia.
Qed.

(** C2, as the code has it: when the qualified entries are the front of
    the points-descending sequence, each of them has rank 1, and the
    first non-qualified entry has rank (count of qualified entries) + 1
    if there is a qualified entry and the last of them has other points
    than it, and rank 1 otherwise. *)
Theorem C2_qualified_block_in_front :
  forall (leaderboardId : Z) (results : list QualifierResult.t)
         (qs ns : list LeaderboardEntry.t),
    sortedLeaderboard leaderboardId results = qs ++ ns ->
    Forall (fun e => LeaderboardEntry.qualified e = true) qs ->
    Forall (fun e => LeaderboardEntry.qualified e = false) ns ->
    (forall e, In e (sortedLeaderboard leaderboardId results) ->
               LeaderboardEntry.qualified e = true ->
               LeaderboardEntry.position e = 1)
    /\ (forall n,
          first_non_qualified (sortedLeaderboard leaderboardId results)
            = Some n ->
          LeaderboardEntry.position n =
            if (0 <? count_qualified (sortedLeaderboard leaderboardId results))
               && negb (LeaderboardEntry.points (last qs n)
                        =? LeaderboardEntry.points n)
            then count_qualified (sortedLeaderboard leaderboardId results) + 1
            else 1).
Proof.
  intros leaderboardId results qs ns E Hq Hn.
  pose proof (sortedLeaderboard_fixed leaderboardId results) as F.
  rewrite E in *. apply spec_rank_pass_split in F. destruct F as [Fq Fn].
  destruct (spec_rank_pass_qualified_block initial_rank_state Hq)
    as (B1 & B2 & B3).
  rewrite Fq in B1. cbn [currentRank rankCount initial_rank_state] in *.
  split.
  - intros e He Qe. apply in_app_or in He. destruct He as [He|He].
    + rewrite Forall_forall in B1. now apply B1.
    + rewrite Forall_forall in Hn. rewrite (Hn e He) in Qe. discriminate.
  - intros n Hfirst.
    rewrite first_non_qualified_app in Hfirst by exact Hq.
    rewrite count_qualified_block by assumption.
    destruct ns as [|n0 ns']; [discriminate|].
    inversion Hn as [|? ? Hn0 _]; subst.
    unfold first_non_qualified in Hfirst. simpl in Hfirst.
    rewrite Hn0 in Hfirst. simpl in Hfirst. injection Hfirst as ->.
    apply spec_rank_pass_head in Fn. destruct Fn as [Pn _].
    rewrite Pn. unfold spec_rank_rule. rewrite Hn0, B2, B3. clear Pn.
    destruct qs as [|x qs0 _] using rev_ind.
    + reflexivity.
    + rewrite spec_rank_state_previous, last_last, length_app.
      cbn [strict_neq fst List.length].
      replace (0 <? Z.of_nat (List.length qs0 + 1)) with true
        by (symmetry; apply Z.ltb_lt; lia).
      cbn [andb].
      destruct (negb _); cbn [fst]; lia.
Qed.

(** C2 as the specification states it fails: a player who is fourth in
    four qualifiers (60000 points) and one who is fourth three times and
    fifth once (55000) are both ahead of a player who won a qualifier
    once (50000, qualified); the qualified entry is ranked 2, and the
    first non-qualified entry is ranked 1, not 2. *)
Lemma C2_qualified_block_fails :
  ~ qualified_block_property (sortedLeaderboard 1 results_outscored).
Proof.
  assert (E : sortedLeaderboard 1 results_outscored =
              [ LeaderboardEntry.make false 60000 "fourth" 1 1;
                LeaderboardEntry.make false 55000 "mixed" 1 2;
                LeaderboardEntry.make true 50000 "first" 1 2 ]%string)
    by (vm_compute; reflexivity).
  rewrite E. intros [H _].
  specialize (H (LeaderboardEntry.make true 50000 "first" 1 2)).
  simpl in H. assert (C : 2 = 1) by (apply H; auto).
  discriminate C.
Qed.

(** A second way in which it fails, with the qualified entry in front:
    a player who is fifth in five qualifiers has the 50000 points of the
    player who won one, follows that player in the sequence and is
    ranked 1 as well, not 2. *)
Lemma qualified_block_fails_on_level_points :
  sortedLeaderboard 1 results_level =
    [ LeaderboardEntry.make true 50000 "first" 1 1;
      LeaderboardEntry.make false 50000 "fifth" 1 1 ]%string
  /\ ~ qualified_block_property (sortedLeaderboard 1 results_level).
Proof.
  assert (E : sortedLeaderboard 1 results_level =
              [ LeaderboardEntry.make true 50000 "first" 1 1;
                LeaderboardEntry.make false 50000 "fifth" 1 1 ]%string)
    by (vm_compute; reflexivity).
  split; [exact E|]. rewrite E. intros [_ H].
  specialize (H (LeaderboardEntry.make false 50000 "fifth" 1 1) eq_refl).
  vm_compute in H. discriminate H.
Qed.

(** The amended property at the scenario of the specification. *)
Lemma C2_qualified_block_in_front_witness :
  (forall e, In e (sortedLeaderboard 7 results_scenario) ->
             LeaderboardEntry.qualified e = true ->
             LeaderboardEntry.position e = 1)
  /\ (forall n,
        first_non_qualified (sortedLeaderboard 7 results_scenario) = Some n ->
        LeaderboardEntry.position n =
          if (0 <? count_qualified (sortedLeaderboard 7 results_scenario))
             && negb (LeaderboardEntry.points
                        (last [LeaderboardEntry.make true 50000 "P1" 7 1] n)
                      =? LeaderboardEntry.points n)
          then count_qualified (sortedLeaderboard 7 results_scenario) + 1
          else 1).
Proof.
  apply (@C2_qualified_block_in_front 7 results_scenario
           [ LeaderboardEntry.make true 50000 "P1" 7 1 ]%string
           [ LeaderboardEntry.make false 15000 "P2" 7 2;
             LeaderboardEntry.make false 7500 "P3" 7 3 ]%string).
  - vm_compute. reflexivity.
  - repeat constructor.
  - repeat constructor.
Defined.

(** The tie scenario of the specification, by C1. *)
Lemma C1_ranking_rule_witness :
  sortedLeaderboard 7 results_tie =
    [ LeaderboardEntry.make false 5000 "anna" 7 1;
      LeaderboardEntry.make false 5000 "ben" 7 1;
      LeaderboardEntry.make false 100 "cleo" 7 3 ]%string
  /\ (1 = 1 /\ 3 = 1 + 2).
Proof.
  split; [vm_compute; reflexivity|].
  apply (proj2 (proj2 (proj2 (proj2 (@C1_ranking_rule 7 results_tie))))
           []
           (LeaderboardEntry.make false 5000 "anna" 7 1)
           (LeaderboardEntry.make false 5000 "ben" 7 1)
           (LeaderboardEntry.make false 100 "cleo" 7 3)
           []).
  - vm_compute. reflexivity.
  - intros e He. vm_compute in He.
    destruct He as [<-|[<-|[<-|[]]]]; reflexivity.
  - intros [|y pre'] x Hx; discriminate Hx.
  - reflexivity.
  - simpl. lia.
Defined.

(** C9 at the scenario of the specification. *)
Lemma C9_rank_monotone_witness :
  sortedLeaderboard 7 results_scenario =
    [ LeaderboardEntry.make true 50000 "P1" 7 1 ]%string
    ++ LeaderboardEntry.make false 15000 "P2" 7 2
       :: LeaderboardEntry.make false 7500 "P3" 7 3 :: []
  /\ 2 <= 3.
Proof.
  split; [vm_compute; reflexivity|].
  apply (@C9_rank_monotone 7 results_scenario
           [ LeaderboardEntry.make true 50000 "P1" 7 1 ]%string []
           (LeaderboardEntry.make false 15000 "P2" 7 2)
           (LeaderboardEntry.make false 7500 "P3" 7 3)).
  vm_compute. reflexivity.
Defined.

(** C10 at the scenario of the specification. *)
Lemma C10_qualified_at_least_50000_witness :
  (forall e, In e (leaderboardEntries 7 results_scenario) ->
             LeaderboardEntry.qualified e = true ->
             LeaderboardEntry.points e >= 50000)
  /\ (forall r, isQualified r = true -> getPointsByResult r = 50000)
  /\ (forall r, In r results_scenario -> getPointsByResult r >= 0).
Proof.
  apply (@C10_qualified_at_least_50000 7 results_scenario).
  intros r Hr. vm_compute in Hr.
  destruct Hr as [<-|[<-|[<-|[]]]]; simpl; lia.
Defined.

(** C6 at a result of server 3 in first place. *)
Lemma C6_unrecognized_server_witness :
  getPointsByResult (result_of "P1" 1 3 1 9000) = 0
  /\ isQualified (result_of "P1" 1 3 1 9000) = false.
Proof.
  apply (@C6_unrecognized_server (result_of "P1" 1 3 1 9000));
    simpl; lia.
Defined.

(** ** [updateLeaderboard] on the database *)

Lemma find_none_iff (A : Type) (f : A -> bool) (l : list A) :
  find f l = None <-> forall x, In x l -> f x = false.
Proof.
  split.
  - apply find_none.
  - induction l as [|x l IH]; simpl; intros H; auto.
    rewrite (H x (or_introl eq_refl)). apply IH. intros; apply H; now right.
Qed.

(** The outcome when the cup and its leaderboard are found: the entries
    of that leaderboard are replaced by the computed ones. *)
Lemma updateLeaderboard_found cupId db cup leaderboard :
  find (fun c => Cup.id c =? cupId) (database.cup db) = Some cup ->
  find (fun l => Leaderboard.cupId l =? Cup.id cup) (database.leaderboard db)
    = Some leaderboard ->
  updateLeaderboard cupId db =
  (database.set_leaderboardEntry db
     (filter
        (fun e => negb (LeaderboardEntry.leaderboardId e
                        =? Leaderboard.id leaderboard))
        (database.leaderboardEntry db)
      ++ leaderboardEntries (Leaderboard.id leaderboard)
           (resultsOfCup (Cup.id cup) db)),
   inr tt).
Proof.
  intros Hc Hl. unfold updateLeaderboard, bind, cup_findUnique.
  rewrite Hc, Hl. reflexivity.
Qed.

Lemma leaderboardEntries_leaderboardId leaderboardId results e :
  In e (leaderboardEntries leaderboardId results) ->
  LeaderboardEntry.leaderboardId e = leaderboardId.
Proof.
  intros Hin.
  destruct (leaderboardEntries_shape leaderboardId results e Hin) as [_ S].
  rewrite S. reflexivity.
Qed.

Lemma filter_idempotent (A : Type) (f : A -> bool) (l : list A) :
  filter f (filter f l) = filter f l.
Proof.
  induction l as [|x l IH]; simpl; auto.
  destruct (f x) eqn:E; simpl; rewrite ?E, IH; reflexivity.
Qed.

Lemma filter_nothing (A : Type) (f : A -> bool) (l : list A) :
  (forall x, In x l -> f x = false) -> filter f l = [].
Proof.
  induction l as [|x l IH]; simpl; intros H; auto.
  rewrite (H x (or_introl eq_refl)). apply IH. intros; apply H; now right.
Qed.

(** Deleting the entries of a leaderboard and writing new ones, twice
    over, is the same as doing it once. *)
Lemma replace_entries_twice (leaderboardId : Z)
  (rows data : list LeaderboardEntry.t) :
  (forall e, In e data -> LeaderboardEntry.leaderboardId e = leaderboardId) ->
  filter (fun e => negb (LeaderboardEntry.leaderboardId e =? leaderboardId))
    (filter (fun e => negb (LeaderboardEntry.leaderboardId e =? leaderboardId))
       rows ++ data) ++ data =
  filter (fun e => negb (LeaderboardEntry.leaderboardId e =? leaderboardId))
    rows ++ data.
Proof.
  intros H. rewrite filter_app, filter_idempotent.
  rewrite (filter_nothing _ data).
  - now rewrite app_nil_r.
  - intros e He. rewrite (H e He), Z.eqb_refl. reflexivity.
Qed.

(** C7: if no cup has the given id, or no leaderboard record belongs to
    that cup, [updateLeaderboard] throws and leaves the database as it
    was: no leaderboard entry is deleted or inserted. *)
Theorem C7_missing_cup_or_leaderboard :
  forall (cupId : Z) (db : database.t),
    (forall c, In c (database.cup db) -> Cup.id c <> cupId)
    \/ (forall l, In l (database.leaderboard db) ->
                  Leaderboard.cupId l <> cupId) ->
    exists err,
      updateLeaderboard cupId db = (db, inl err)
      /\ (err = NoCupWithId cupId \/ err = CupHasNoLeaderboard).
Proof.
  intros cupId db H. unfold updateLeaderboard, bind, cup_findUnique, throw.
  destruct (find (fun c => Cup.id c =? cupId) (database.cup db))
    as [cup|] eqn:Ec.
  - destruct H as [H|H].
    + apply find_some in Ec. destruct Ec as [Hin Hid].
      apply Z.eqb_eq in Hid. exfalso. exact (H cup Hin Hid).
    + assert (El : find (fun l => Leaderboard.cupId l =? Cup.id cup)
                     (database.leaderboard db) = None).
      { apply find_none_iff. intros l Hl. apply Z.eqb_neq.
        apply find_some in Ec. destruct Ec as [_ Hid].
        apply Z.eqb_eq in Hid. rewrite Hid. now apply H. }
      rewrite El. eauto.
  - eauto.
Qed.

(** C8: running [updateLeaderboard] again on the database that a run
    leaves behind, with the results untouched, has the same outcome and
    leaves the same database: the same entries, with the same points,
    qualified flags and ranks. *)
Theorem C8_idempotent :
  forall (cupId : Z) (db : database.t),
    updateLeaderboard cupId (fst (updateLeaderboard cupId db)) =
    updateLeaderboard cupId db.
Proof.
  intros cupId db.
  destruct (find (fun c => Cup.id c =? cupId) (database.cup db))
    as [cup|] eqn:Ec.
  - destruct (find (fun l => Leaderboard.cupId l =? Cup.id cup)
                (database.leaderboard db)) as [leaderboard|] eqn:El.
    + rewrite (@updateLeaderboard_found cupId db cup leaderboard Ec El).
      cbn [fst].
      match goal with
      | |- updateLeaderboard cupId ?db1 = _ =>
          rewrite (@updateLeaderboard_found cupId db1 cup leaderboard Ec El)
      end.
      unfold database.set_leaderboardEntry, resultsOfCup.
      cbn [database.cup database.leaderboard database.qualifier
           database.qualifierResult database.leaderboardEntry].
      rewrite replace_entries_twice; [reflexivity|].
      intros e He. exact (leaderboardEntries_leaderboardId _ _ _ He).
    + unfold updateLeaderboard, bind, cup_findUnique, throw.
      rewrite Ec, El. cbn. rewrite Ec, El. reflexivity.
  - unfold updateLeaderboard, bind, cup_findUnique, throw.
    rewrite Ec. cbn. rewrite Ec. reflexivity.
Qed.

(** C7 at the example database: cup 3 does not exist and cup 2 has no
    leaderboard. *)
Lemma C7_missing_cup_or_leaderboard_witness :
  (exists err,
     updateLeaderboard 3 example_db = (example_db, inl err)
     /\ (err = NoCupWithId 3 \/ err = CupHasNoLeaderboard))
  /\ (exists err,
        updateLeaderboard 2 example_db = (example_db, inl err)
        /\ (err = NoCupWithId 2 \/ err = CupHasNoLeaderboard)).
Proof.
  split.
  - apply (@C7_missing_cup_or_leaderboard 3 example_db). left.
    intros c Hc. simpl in Hc. destruct Hc as [<-|[<-|[]]]; simpl; lia.
  - apply (@C7_missing_cup_or_leaderboard 2 example_db). right.
    intros l Hl. simpl in Hl. destruct Hl as [<-|[]]; simpl; lia.
Defined.

(** The example database after a run for cup 1: the entry of the other
    leaderboard stays, the stale entry of leaderboard 7 is gone and the
    three entries of the scenario are written. *)
Example updateLeaderboard_example :
  updateLeaderboard 1 example_db =
  (database.set_leaderboardEntry example_db
     [ LeaderboardEntry.make true 50000 "P1" 8 1;
       LeaderboardEntry.make true 50000 "P1" 7 1;
       LeaderboardEntry.make false 15000 "P2" 7 2;
       LeaderboardEntry.make false 7500 "P3" 7 3 ]%string,
   inr tt).
Proof. vm_compute. reflexivity. Qed.

(** The award table at positions that grant no bonus: position 0 and a
    negative position on either server. *)
Example getPointsByResult_unvalidated_positions :
  getPointsByResult (result_of "P1" 1 1 0 7000) = 7500
  /\ getPointsByResult (result_of "P1" 1 1 (-2) 100) = 100
  /\ getPointsByResult (result_of "P1" 1 2 0 4500) = 5000
  /\ getPointsByResult (result_of "P1" 1 2 (-1) 4499) = 4499.
Proof. repeat split. Qed.

(** * Further properties of the code *)

(** ** Ranks along the sorted sequence *)

Lemma spec_rank_rule_after st e :
  currentRank (snd (spec_rank_rule st e)) = fst (spec_rank_rule st e)
  /\ previousAmount (snd (spec_rank_rule st e)) =
     Some (LeaderboardEntry.points e)
  /\ currentRank (snd (spec_rank_rule st e))
     + rankCount (snd (spec_rank_rule st e)) =
     currentRank st + rankCount st + 1
  /\ (0 <= rankCount st -> 1 <= rankCount (snd (spec_rank_rule st e)))
  /\ (1 <= currentRank st -> 0 <= rankCount st ->
      1 <= currentRank (snd (spec_rank_rule st e))).
Proof.
  unfold spec_rank_rule.
  destruct (LeaderboardEntry.qualified e); simpl;
    [repeat split; lia|].
  destruct (strict_neq _ _); simpl; repeat split; lia.
Qed.

Lemma spec_rank_state_snoc st l x :
  spec_rank_state st (l ++ [x]) =
  snd (spec_rank_rule (spec_rank_state st l) x).
Proof. unfold spec_rank_state. now rewrite fold_left_app. Qed.

(** The counters after a prefix of the sequence: they add up to the
    number of entries seen plus one. *)
Lemma spec_rank_state_counters pre :
  let st := spec_rank_state initial_rank_state pre in
  currentRank st + rankCount st = Z.of_nat (List.length pre) + 1
  /\ 0 <= rankCount st
  /\ 1 <= currentRank st.
Proof.
  induction pre as [|x pre IH] using rev_ind; cbv zeta in *.
  - simpl. lia.
  - rewrite spec_rank_state_snoc, length_app. cbn [List.length].
    destruct IH as (I1 & I2 & I3).
    destruct (spec_rank_rule_after (spec_rank_state initial_rank_state pre) x)
      as (_ & _ & A3 & A4 & A5).
    specialize (A4 I2). specialize (A5 I3 I2).
    repeat split; lia.
Qed.

(** The rank an entry of the sorted sequence carries is the one the rule
    gives it after the entries before it. *)
Lemma ranked_at leaderboardId results pre e post :
  sortedLeaderboard leaderboardId results = pre ++ e :: post ->
  LeaderboardEntry.position e =
  fst (spec_rank_rule (spec_rank_state initial_rank_state pre) e).
Proof.
  intros E.
  pose proof (sortedLeaderboard_fixed leaderboardId results) as F.
  rewrite E in F. apply spec_rank_pass_split in F. destruct F as [_ F].
  apply spec_rank_pass_head in F. tauto.
Qed.

(** The counters right after an entry of the sorted sequence. *)
Lemma state_after_ranked leaderboardId results pre e post :
  sortedLeaderboard leaderboardId results = pre ++ e :: post ->
  let st := spec_rank_state initial_rank_state (pre ++ [e]) in
  currentRank st = LeaderboardEntry.position e
  /\ previousAmount st = Some (LeaderboardEntry.points e)
  /\ 1 <= rankCount st
  /\ currentRank st + rankCount st = Z.of_nat (List.length pre) + 2.
Proof.
  intros E. cbv zeta.
  rewrite (@ranked_at leaderboardId results pre e post E).
  pose proof (spec_rank_state_counters pre) as C. cbv zeta in C.
  rewrite spec_rank_state_snoc.
  destruct (spec_rank_rule_after (spec_rank_state initial_rank_state pre) e)
    as (A1 & A2 & A3 & A4 & _).
  destruct C as (C1 & C2 & C3). specialize (A4 C2).
  repeat split; auto; lia.
Qed.

(** X1: a rank is at least 1 and at most the place of the entry in the
    sorted sequence, counted from 1. *)
Theorem rank_between_one_and_place :
  forall (leaderboardId : Z) (results : list QualifierResult.t)
         (pre post : list LeaderboardEntry.t) (e : LeaderboardEntry.t),
    sortedLeaderboard leaderboardId results = pre ++ e :: post ->
    1 <= LeaderboardEntry.position e <= Z.of_nat (List.length pre) + 1.
Proof.
  intros leaderboardId results pre post e E.
  destruct (@state_after_ranked leaderboardId results pre e post E)
    as (S1 & _ & S3 & S4).
  pose proof (spec_rank_state_counters pre) as C. cbv zeta in C.
  rewrite (@ranked_at leaderboardId results pre e post E) in *.
  destruct (@spec_rank_rule_bounds
              (spec_rank_state initial_rank_state pre) e (proj1 (proj2 C)))
    as (B1 & _).
  rewrite <- S1. rewrite <- S1 in B1. lia.
Qed.

(** X3: a non-qualified entry whose points differ from those of the
    entry before it is ranked strictly below that entry. *)
Theorem rank_drops_after_other_points :
  forall (leaderboardId : Z) (results : list QualifierResult.t)
         (pre post : list LeaderboardEntry.t) (a b : LeaderboardEntry.t),
    sortedLeaderboard leaderboardId results = pre ++ a :: b :: post ->
    LeaderboardEntry.qualified b = false ->
    LeaderboardEntry.points a <> LeaderboardEntry.points b ->
    LeaderboardEntry.position a < LeaderboardEntry.position b.
Proof.
  intros leaderboardId results pre post a b E Qb Hne.
  destruct (@state_after_ranked leaderboardId results pre a (b :: post) E)
    as (S1 & S2 & S3 & _).
  assert (E' : sortedLeaderboard leaderboardId results =
               (pre ++ [a]) ++ b :: post)
    by (rewrite E, <- app_assoc; reflexivity).
  rewrite (@ranked_at leaderboardId results (pre ++ [a]) b post E').
  unfold spec_rank_rule. rewrite Qb, S2. cbn [strict_neq].
  destruct (Z.eqb_spec (LeaderboardEntry.points a) (LeaderboardEntry.points b));
    [contradiction|].
  cbn [negb fst]. lia.
Qed.

Lemma sorted_after (A : Type) (R : A -> A -> Prop) (l1 rest : list A) (a : A) :
  StronglySorted R (l1 ++ a :: rest) -> Forall (R a) rest.
Proof.
  induction l1 as [|x l1 IH]; simpl; intros H;
    inversion H as [|? ? Hs Hall]; subst; auto.
Qed.

Lemma sorted_before (A : Type) (R : A -> A -> Prop) (l1 rest : list A) (a : A) :
  StronglySorted R (l1 ++ a :: rest) -> forall x, In x l1 -> R x a.
Proof.
  intros H x Hx. apply in_split in Hx. destruct Hx as (m1 & m2 & ->).
  rewrite <- app_assoc in H. simpl in H. apply sorted_after in H.
  rewrite Forall_forall in H. apply H. apply in_or_app. right. now left.
Qed.

Lemma spec_rank_state_level st p l :
  previousAmount st = Some p ->
  Forall (fun x => LeaderboardEntry.points x = p) l ->
  currentRank (spec_rank_state st l) = currentRank st
  /\ previousAmount (spec_rank_state st l) = Some p.
Proof.
  intros Hp Hl. revert st Hp.
  induction Hl as [|x l Hx _ IH]; intros st Hp; [now split|].
  change (spec_rank_state st (x :: l))
    with (spec_rank_state (snd (spec_rank_rule st x)) l).
  assert (R : currentRank (snd (spec_rank_rule st x)) = currentRank st
              /\ previousAmount (snd (spec_rank_rule st x)) = Some p).
  { unfold spec_rank_rule. rewrite Hp, Hx. cbn [strict_neq].
    rewrite Z.eqb_refl. cbn [negb].
    destruct (LeaderboardEntry.qualified x); split; reflexivity. }
  destruct R as [R1 R2]. destruct (IH _ R2) as [I1 I2].
  split; congruence.
Qed.

(** X2: two entries with the same points have the same rank, whether
    qualified or not. *)
Theorem level_points_share_rank :
  forall (leaderboardId : Z) (results : list QualifierResult.t)
         (l1 l2 l3 : list LeaderboardEntry.t) (a b : LeaderboardEntry.t),
    sortedLeaderboard leaderboardId results = l1 ++ a :: l2 ++ b :: l3 ->
    LeaderboardEntry.points a = LeaderboardEntry.points b ->
    LeaderboardEntry.position a = LeaderboardEntry.position b.
Proof.
  intros leaderboardId results l1 l2 l3 a b E Eab.
  pose proof (sortedLeaderboard_sorted leaderboardId results) as S.
  rewrite E in S.
  assert (L : Forall (fun x => LeaderboardEntry.points x
                               = LeaderboardEntry.points a) l2).
  { apply Forall_forall. intros x Hx.
    pose proof (sorted_after _ _ _ S) as Sa. rewrite Forall_forall in Sa.
    assert (Ha : points_descending a x)
      by (apply Sa; apply in_or_app; now left).
    assert (Hb : points_descending x b).
    { replace (l1 ++ a :: l2 ++ b :: l3)
        with ((l1 ++ a :: l2) ++ b :: l3) in S
        by (rewrite <- app_assoc; reflexivity).
      apply (sorted_before _ _ _ S). apply in_or_app. right. now right. }
    unfold points_descending in *. lia. }
  destruct (@state_after_ranked leaderboardId results l1 a (l2 ++ b :: l3) E)
    as (S1 & S2 & _).
  destruct (spec_rank_state_level _ S2 L) as [C1 C2].
  rewrite <- spec_rank_state_app in C1, C2.
  assert (E' : sortedLeaderboard leaderboardId results =
               ((l1 ++ [a]) ++ l2) ++ b :: l3)
    by (rewrite E, <- !app_assoc; reflexivity).
  rewrite (@ranked_at leaderboardId results ((l1 ++ [a]) ++ l2) b l3 E').
  unfold spec_rank_rule. rewrite C2, <- Eab. cbn [strict_neq].
  rewrite Z.eqb_refl. cbn [negb].
  destruct (LeaderboardEntry.qualified b); cbn [fst]; congruence.
Qed.

Lemma count_more_app p l1 l2 :
  count_more p (l1 ++ l2) = count_more p l1 + count_more p l2.
Proof. unfold count_more. rewrite filter_app, length_app. lia. Qed.

Lemma count_more_all p l :
  (forall y, In y l -> LeaderboardEntry.points y > p) ->
  count_more p l = Z.of_nat (List.length l).
Proof.
  unfold count_more.
  induction l as [|y l IH]; intros H; cbn [filter]; [reflexivity|].
  assert (Hy : (LeaderboardEntry.points y >? p) = true)
    by (apply Z.gtb_lt; specialize (H y (or_introl eq_refl)); lia).
  rewrite Hy. cbn [List.length]. rewrite !Nat2Z.inj_succ.
  rewrite IH by (intros; apply H; now right). reflexivity.
Qed.

Lemma count_more_none p l :
  (forall y, In y l -> LeaderboardEntry.points y <= p) ->
  count_more p l = 0.
Proof.
  unfold count_more.
  induction l as [|y l IH]; intros H; cbn [filter]; [reflexivity|].
  assert (Hy : (LeaderboardEntry.points y >? p) = false).
  { specialize (H y (or_introl eq_refl)).
    destruct (LeaderboardEntry.points y >? p) eqn:G; auto.
    apply Z.gtb_lt in G. lia. }
  rewrite Hy. apply IH. intros; apply H; now right.
Qed.

Lemma competition_rank_prefix leaderboardId results :
  (forall x, In x (sortedLeaderboard leaderboardId results) ->
             LeaderboardEntry.qualified x = false) ->
  forall pre e post,
    sortedLeaderboard leaderboardId results = pre ++ e :: post ->
    LeaderboardEntry.position e = 1 + count_more (LeaderboardEntry.points e) pre.
Proof.
  intros NQ pre.
  induction pre as [|x pre IH] using rev_ind; intros e post E.
  - rewrite (@ranked_at leaderboardId results [] e post E).
    unfold spec_rank_rule.
    rewrite (NQ e) by (rewrite E; now left). reflexivity.
  - assert (E0 : sortedLeaderboard leaderboardId results =
                 pre ++ x :: e :: post)
      by (rewrite E, <- app_assoc; reflexivity).
    specialize (IH x (e :: post) E0).
    destruct (@state_after_ranked leaderboardId results pre x (e :: post) E0)
      as (S1 & S2 & _ & S4).
    rewrite (@ranked_at leaderboardId results (pre ++ [x]) e post E).
    unfold spec_rank_rule.
    rewrite (NQ e) by (rewrite E; apply in_or_app; right; now left).
    rewrite S2. cbn [strict_neq]. rewrite count_more_app.
    pose proof (sortedLeaderboard_sorted leaderboardId results) as S.
    rewrite E0 in S.
    assert (Hxe : points_descending x e).
    { pose proof (sorted_after _ _ _ S) as Sa.
      rewrite Forall_forall in Sa. apply Sa. now left. }
    unfold points_descending in Hxe.
    destruct (Z.eqb_spec (LeaderboardEntry.points x) (LeaderboardEntry.points e))
      as [Exe|Nxe]; cbn [negb fst].
    + rewrite (@count_more_none (LeaderboardEntry.points e) [x]).
      * rewrite S1, IH, Exe. lia.
      * intros y [<-|[]]. lia.
    + rewrite (@count_more_all (LeaderboardEntry.points e) pre).
      * rewrite (@count_more_all (LeaderboardEntry.points e) [x]).
        -- simpl List.length. lia.
        -- intros y [<-|[]]. lia.
      * intros y Hy. pose proof (sorted_before _ _ _ S y Hy) as Hyx.
        unfold points_descending in Hyx. lia.
Qed.

(** X4: when no entry is qualified the ranks are those of a standard
    competition ranking: one more than the number of entries with more
    points. *)
Theorem competition_rank_without_qualified :
  forall (leaderboardId : Z) (results : list QualifierResult.t)
         (pre post : list LeaderboardEntry.t) (e : LeaderboardEntry.t),
    sortedLeaderboard leaderboardId results = pre ++ e :: post ->
    (forall x, In x (sortedLeaderboard leaderboardId results) ->
               LeaderboardEntry.qualified x = false) ->
    LeaderboardEntry.position e =
    1 + count_more (LeaderboardEntry.points e)
          (sortedLeaderboard leaderboardId results).
Proof.
  intros leaderboardId results pre post e E NQ.
  rewrite (@competition_rank_prefix leaderboardId results NQ pre e post E).
  rewrite E. rewrite count_more_app.
  rewrite (@count_more_none (LeaderboardEntry.points e) (e :: post)); [lia|].
  pose proof (sortedLeaderboard_sorted leaderboardId results) as S.
  rewrite E in S. pose proof (sorted_after _ _ _ S) as Sa.
  rewrite Forall_forall in Sa.
  intros y [<-|Hy]; [lia|]. specialize (Sa y Hy).
  unfold points_descending in Sa. lia.
Qed.

(** ** Totals of the aggregation *)

Lemma sumPoints_app l1 l2 : sumPoints (l1 ++ l2) = sumPoints l1 + sumPoints l2.
Proof.
  unfold sumPoints. induction l1 as [|e l1 IH]; simpl; [reflexivity|].
  rewrite IH. lia.
Qed.

Lemma js_values_app (V : Type) (o1 o2 : object V) :
  js_values (o1 ++ o2) = js_values o1 ++ js_values o2.
Proof. unfold js_values. apply map_app. Qed.

Lemma js_replace_sumPoints (map : entry_store) k e v :
  js_get k map = Some e ->
  sumPoints (js_values (js_replace k v map)) =
  sumPoints (js_values map) - LeaderboardEntry.points e
  + LeaderboardEntry.points v.
Proof.
  induction map as [|[k0 w] map IH]; simpl; [discriminate|].
  destruct (String.eqb_spec k k0) as [->|Hne].
  - intros [= ->]. unfold sumPoints. simpl. lia.
  - intros E. specialize (IH E). unfold sumPoints in *. simpl. lia.
Qed.

Lemma absorb_points e r :
  LeaderboardEntry.points (absorb e r) =
  LeaderboardEntry.points e + getPointsByResult r.
Proof. unfold absorb. now destruct (isQualified r). Qed.

Lemma accumulate_sumPoints leaderboardId map r :
  sumPoints (js_values (accumulate leaderboardId map r)) =
  sumPoints (js_values map) + getPointsByResult r.
Proof.
  rewrite accumulate_absorb.
  destruct (js_get (QualifierResult.playerId r) map) as [e|] eqn:E.
  - unfold js_set. rewrite E.
    rewrite (@js_replace_sumPoints map _ e _ E), absorb_points.
    cbn [or_fresh]. lia.
  - destruct (@js_set_new_split _ (QualifierResult.playerId r)
                (absorb (or_fresh leaderboardId (QualifierResult.playerId r)
                           None) r) map E) as (o1 & o2 & E1 & E2).
    rewrite E2. subst map.
    rewrite !js_values_app, !sumPoints_app.
    change (js_values ((QualifierResult.playerId r,
                        absorb (or_fresh leaderboardId
                                  (QualifierResult.playerId r) None) r) :: o2))
      with (absorb (or_fresh leaderboardId (QualifierResult.playerId r) None) r
            :: js_values o2).
    unfold sumPoints at 2. cbn [List.map fold_right].
    fold (sumPoints (js_values o2)).
    rewrite absorb_points. cbn [or_fresh fresh_entry LeaderboardEntry.points].
    lia.
Qed.

Lemma groupByPlayer_sumPoints leaderboardId results :
  sumPoints (js_values (groupByPlayer leaderboardId results)) =
  totalPoints results.
Proof.
  unfold groupByPlayer.
  assert (G : forall map,
            sumPoints (js_values (fold_left (accumulate leaderboardId)
                                    results map)) =
            sumPoints (js_values map) + totalPoints results).
  { induction results as [|r results IH]; intros map; simpl.
    - unfold totalPoints. simpl. lia.
    - rewrite IH, accumulate_sumPoints. unfold totalPoints. simpl. lia. }
  rewrite G. reflexivity.
Qed.

Lemma js_replace_same_points (map : entry_store) k e v :
  js_get k map = Some e ->
  LeaderboardEntry.points v = LeaderboardEntry.points e ->
  List.map LeaderboardEntry.points (js_values (js_replace k v map)) =
  List.map LeaderboardEntry.points (js_values map).
Proof.
  induction map as [|[k0 w] map IH]; simpl; [discriminate|].
  destruct (String.eqb_spec k k0) as [->|Hne].
  - intros [= ->] Hv. simpl. now rewrite Hv.
  - intros E Hv. simpl. f_equal. now apply IH.
Qed.

Lemma rank_loop_points refs acc :
  List.map LeaderboardEntry.points
    (js_values (snd (fold_left rank_step refs acc))) =
  List.map LeaderboardEntry.points (js_values (snd acc)).
Proof.
  revert acc. induction refs as [|ref refs IH]; intros [st map];
    cbn [fold_left]; [reflexivity|].
  rewrite IH. unfold entry_store in *.
  destruct (js_get ref map) as [e|] eqn:E.
  - rewrite (@rank_step_present st map ref e E). cbn [snd].
    now apply js_replace_same_points with (e := e).
  - now rewrite (@rank_step_absent st map ref E).
Qed.





Lemma filter_map_commute (A B : Type) (f : A -> B) (P : B -> bool)
  (l : list A) :
  filter P (List.map f l) = List.map f (filter (fun x => P (f x)) l).
Proof.
  induction l as [|x l IH]; simpl; auto.
  destruct (P (f x)); simpl; now rewrite IH.
Qed.

Lemma points_after_ranking refs st (map : object LeaderboardEntry.t) k :
  LeaderboardEntry.points
    (deref (snd (fold_left rank_step refs (st, map))) k) =
  points_at map k.
Proof.
  pose proof (rank_loop_position_only refs st map k) as P.
  unfold deref, points_at.
  destruct (js_get k map) as [e|].
  - destruct P as [rank ->]. reflexivity.
  - rewrite P. reflexivity.
Qed.

(** X7: the sort is stable: entries with the same points come in the
    sorted sequence in the order in which [Object.values] lists them. *)
Theorem level_points_keep_map_order :
  forall (leaderboardId : Z) (results : list QualifierResult.t) (v : Z),
    filter (fun e => LeaderboardEntry.points e =? v)
      (sortedLeaderboard leaderboardId results) =
    filter (fun e => LeaderboardEntry.points e =? v)
      (leaderboardEntries leaderboardId results).
Proof.
  intros leaderboardId results v.
  unfold sortedLeaderboard, leaderboardEntries, computeLeaderboard.
  cbn [fst].
  set (map0 := groupByPlayer leaderboardId results).
  set (refs := sortLeaderboard map0 (js_keys map0)).
  assert (K : js_keys (assignRanks map0 refs) = js_keys map0)
    by (unfold assignRanks; now rewrite rank_loop_keys).
  rewrite (@js_values_keys _ (assignRanks map0 refs)
             (fun k => fresh_entry k 0))
    by (rewrite K; apply groupByPlayer_NoDup).
  fold (deref (assignRanks map0 refs)). rewrite K.
  rewrite !filter_map_commute. f_equal.
  unfold assignRanks.
  assert (X : forall l,
            filter (fun x => LeaderboardEntry.points
                      (deref (snd (fold_left rank_step refs
                                     (initial_rank_state, map0))) x) =? v) l =
            filter (fun k => points_at map0 k =? v) l).
  { intros l. apply filter_ext. intros k. f_equal.
    exact (points_after_ranking refs initial_rank_state map0 k). }
  rewrite !X.
  unfold refs, sortLeaderboard. apply js_sort_stable.
Qed.

(** X8: awards are capped: no result is awarded more than 50000 points,
    and a result that does not qualify no more than 15000. *)
Theorem award_caps :
  forall (r : QualifierResult.t),
    getPointsByResult r <= 50000
    /\ (isQualified r = false -> getPointsByResult r <= 15000).
Proof.
  intros r. unfold_scoring. split_tests; split; intros; try lia;
    discriminate.
Qed.

(** X9: for a fixed server and position, more raw points never give a
    smaller award. *)
Theorem award_monotone_in_raw_points :
  forall (r r' : QualifierResult.t),
    QualifierResult.server r = QualifierResult.server r' ->
    QualifierResult.position r = QualifierResult.position r' ->
    QualifierResult.points r <= QualifierResult.points r' ->
    getPointsByResult r <= getPointsByResult r'.
Proof.
  intros r r' Hs Hp Hle. unfold_scoring. rewrite Hs, Hp.
  split_tests; lia.
Qed.

(** ** [updateLeaderboard]: what it writes and what it leaves alone *)

Lemma entriesOfLeaderboard_others leaderboardId rows :
  entriesOfLeaderboard leaderboardId (entriesOfOthers leaderboardId rows) = [].
Proof.
  unfold entriesOfLeaderboard, entriesOfOthers.
  apply filter_nothing. intros e He. apply filter_In in He.
  destruct He as [_ He]. now destruct (_ =? _).
Qed.

Lemma entriesOfOthers_idempotent leaderboardId rows :
  entriesOfOthers leaderboardId (entriesOfOthers leaderboardId rows) =
  entriesOfOthers leaderboardId rows.
Proof. apply filter_idempotent. Qed.


Lemma NoDup_map_filter (A B : Type) (f : A -> B) (p : A -> bool) (l : list A) :
  NoDup (List.map f l) -> NoDup (List.map f (filter p l)).
Proof.
  induction l as [|x l IH]; simpl; intros H; auto.
  inversion H as [|? ? Hnot H']; subst.
  destruct (p x); simpl; auto.
  constructor; auto. intros I. apply Hnot.
  apply in_map_iff in I. destruct I as (y & Ey & Hy).
  apply filter_In in Hy. apply in_map_iff. exists y. tauto.
Qed.

(** X11: [updateLeaderboard] keeps the primary key of
    [LeaderboardEntry]: if no two stored entries share player and
    leaderboard, none do afterwards, whatever the outcome. *)
Theorem updateLeaderboard_keeps_primary_key :
  forall (cupId : Z) (db : database.t),
    NoDup (List.map entry_key (database.leaderboardEntry db)) ->
    NoDup (List.map entry_key
             (database.leaderboardEntry (fst (updateLeaderboard cupId db)))).
Proof.
  intros cupId db ND.
  destruct (find (fun c => Cup.id c =? cupId) (database.cup db))
    as [cup|] eqn:Ec.
  - destruct (find (fun l => Leaderboard.cupId l =? Cup.id cup)
                (database.leaderboard db)) as [leaderboard|] eqn:El.
    + rewrite (@updateLeaderboard_found cupId db cup leaderboard Ec El).
      cbn [fst database.set_leaderboardEntry database.leaderboardEntry].
      rewrite map_app. apply NoDup_app.
      * now apply NoDup_map_filter.
      * pose proof (leaderboardEntries_distinct_players
                      (Leaderboard.id leaderboard)
                      (resultsOfCup (Cup.id cup) db)) as D.
        rewrite <- (map_map entry_key fst) in D.
        exact (NoDup_map_inv _ _ D).
      * intros k Hk Hk'. apply in_map_iff in Hk, Hk'.
        destruct Hk as (e & <- & He). destruct Hk' as (e' & Ee & He').
        apply filter_In in He. destruct He as [_ He].
        apply leaderboardEntries_leaderboardId in He'.
        unfold entry_key in Ee. injection Ee as _ El'.
        rewrite <- El', He', Z.eqb_refl in He. discriminate.
    + unfold updateLeaderboard, bind, cup_findUnique, throw.
      rewrite Ec, El. exact ND.
  - unfold updateLeaderboard, bind, cup_findUnique, throw.
    rewrite Ec. exact ND.
Qed.

(** ** [updateResults] *)

Lemma upsertPlayers_eq content w :
  upsertPlayers content w =
  (fullDatabase.set_player w (playersAfter content (fullDatabase.player w)),
   inr tt).
Proof.
  revert w. induction content as [|row content IH]; intros w.
  - destruct w. reflexivity.
  - cbn [upsertPlayers]. unfold task_bind, player_upsert.
    rewrite IH. reflexivity.
Qed.

(** [updateResults] in one step: the players are upserted, the stored
    rows of the qualifier and server are deleted, and the new rows are
    inserted if the constraints allow it. *)
Lemma updateResults_eq qualifierId server content w :
  updateResults qualifierId server content w =
  let stored :=
    resultsOfOtherUploads qualifierId server
      (database.qualifierResult (fullDatabase.tables w)) in
  let data := List.map (resultOfRow qualifierId server) content in
  let players := playersAfter content (fullDatabase.player w) in
  let deleted :=
    fullDatabase.make
      (with_qualifierResult (fullDatabase.tables w) stored) players in
  if negb (conflict_free stored data)
  then (deleted, inl UniqueConstraintFailed)
  else if negb (forallb (references_hold deleted) data)
  then (deleted, inl ForeignKeyConstraintFailed)
  else (fullDatabase.make
          (with_qualifierResult (fullDatabase.tables w) (stored ++ data))
          players,
        inr tt).
Proof.
  unfold updateResults, task_bind. rewrite upsertPlayers_eq.
  unfold qualifierResult_deleteMany, qualifierResult_createMany.
  cbv zeta.
  cbn [fullDatabase.tables fullDatabase.player fullDatabase.set_player
       fullDatabase.set_tables with_qualifierResult database.qualifierResult
       database.cup database.leaderboard database.qualifier
       database.leaderboardEntry].
  fold (resultsOfOtherUploads qualifierId server
          (database.qualifierResult (fullDatabase.tables w))).
  destruct (negb (conflict_free _ _)); [reflexivity|].
  destruct (negb (forallb _ _)); reflexivity.
Qed.

(** The tables after [updateResults], whatever its outcome. *)
Lemma updateResults_tables :
  forall (qualifierId server : Z) (content : list Columns.t)
         (w : fullDatabase.t),
    let after := fst (updateResults qualifierId server content w) in
    database.qualifierResult (fullDatabase.tables after) =
      resultsOfOtherUploads qualifierId server
        (database.qualifierResult (fullDatabase.tables w))
      ++ match snd (updateResults qualifierId server content w) with
         | inr _ => List.map (resultOfRow qualifierId server) content
         | inl _ => []
         end
    /\ database.cup (fullDatabase.tables after) =
       database.cup (fullDatabase.tables w)
    /\ database.leaderboard (fullDatabase.tables after) =
       database.leaderboard (fullDatabase.tables w)
    /\ database.qualifier (fullDatabase.tables after) =
       database.qualifier (fullDatabase.tables w)
    /\ database.leaderboardEntry (fullDatabase.tables after) =
       database.leaderboardEntry (fullDatabase.tables w)
    /\ fullDatabase.player after =
       playersAfter content (fullDatabase.player w).
Proof.
  intros qualifierId server content w. cbv zeta.
  rewrite updateResults_eq. cbv zeta.
  destruct (negb (conflict_free _ _));
    [|destruct (negb (forallb _ _))];
    cbn [fst snd fullDatabase.tables fullDatabase.player
         with_qualifierResult database.qualifierResult database.cup
         database.leaderboard database.qualifier database.leaderboardEntry];
    rewrite ?app_nil_r; repeat split.
Qed.

(** X13: whatever the outcome, [updateResults] leaves the results of
    other qualifiers and servers and all tables but [Player] and
    [QualifierResult] as they were, and deletes the stored results of
    the qualifier and server; the uploaded rows are stored, in their
    order, exactly when it returns normally.  When it throws, the
    previous results of that qualifier and server are lost. *)
Theorem updateResults_effect :
  forall (qualifierId server : Z) (content : list Columns.t)
         (w : fullDatabase.t),
    let after := fst (updateResults qualifierId server content w) in
    database.qualifierResult (fullDatabase.tables after) =
      resultsOfOtherUploads qualifierId server
        (database.qualifierResult (fullDatabase.tables w))
      ++ match snd (updateResults qualifierId server content w) with
         | inr _ => List.map (resultOfRow qualifierId server) content
         | inl _ => []
         end
    /\ database.cup (fullDatabase.tables after) =
       database.cup (fullDatabase.tables w)
    /\ database.leaderboard (fullDatabase.tables after) =
       database.leaderboard (fullDatabase.tables w)
    /\ database.qualifier (fullDatabase.tables after) =
       database.qualifier (fullDatabase.tables w)
    /\ database.leaderboardEntry (fullDatabase.tables after) =
       database.leaderboardEntry (fullDatabase.tables w)
    /\ fullDatabase.player after =
       playersAfter content (fullDatabase.player w).
Proof. exact updateResults_tables. Qed.

Lemma same_key_iff a b : same_key a b = true <-> result_key a = result_key b.
Proof.
  unfold same_key, result_key. rewrite !andb_true_iff, String.eqb_eq, !Z.eqb_eq.
  split.
  - intros [[-> ->] ->]. reflexivity.
  - intros [= -> -> ->]. auto.
Qed.

Lemma existsb_same_key d stored :
  existsb (same_key d) stored = true <->
  In (result_key d) (List.map result_key stored).
Proof.
  rewrite existsb_exists, in_map_iff. split.
  - intros (x & Hx & K). apply same_key_iff in K. eauto.
  - intros (x & K & Hx). exists x. split; auto. now apply same_key_iff.
Qed.

(** The rows can be inserted exactly when their keys are pairwise
    distinct and none is the key of a stored row. *)
Lemma conflict_free_iff data : forall stored,
  conflict_free stored data = true <->
  NoDup (List.map result_key data)
  /\ (forall d, In d data ->
                ~ In (result_key d) (List.map result_key stored)).
Proof.
  induction data as [|d data IH]; intros stored; simpl.
  - split; [intros _; split; [constructor | intros ? []] | reflexivity].
  - rewrite andb_true_iff, negb_true_iff, IH, <- not_true_iff_false,
      existsb_same_key.
    split.
    + intros (Hd & ND & Hrest). split.
      * constructor; auto. intros I. apply in_map_iff in I.
        destruct I as (x & K & Hx). apply (Hrest x Hx).
        rewrite map_app, K. apply in_or_app. right. now left.
      * intros x [<-|Hx]; auto. intros I. apply (Hrest x Hx).
        rewrite map_app. apply in_or_app. now left.
    + intros (ND & Hall). inversion ND as [|? ? Hnot ND']; subst.
      split; [apply Hall; now left|]. split; auto.
      intros x Hx I. rewrite map_app in I. apply in_app_or in I.
      destruct I as [I|[K|[]]].
      * apply (Hall x); auto.
      * apply Hnot. rewrite K. now apply in_map.
Qed.

Lemma NoDup_map_injective (A B : Type) (f : A -> B) (l : list A) :
  (forall x y, f x = f y -> x = y) -> NoDup l -> NoDup (List.map f l).
Proof.
  intros Hinj. induction 1 as [|x l Hnot _ IH]; simpl; constructor; auto.
  intros I. apply in_map_iff in I. destruct I as (y & E & Hy).
  apply Hinj in E. now subst.
Qed.

Lemma upload_keys qualifierId server content :
  List.map result_key (List.map (resultOfRow qualifierId server) content) =
  List.map (fun login => (login, qualifierId, server))
    (List.map Columns.LOGIN content).
Proof. rewrite !map_map. reflexivity. Qed.

(** After the deletion, only two rows of the upload with one login can
    collide. *)
Lemma upload_conflict_free qualifierId server content rows :
  conflict_free (resultsOfOtherUploads qualifierId server rows)
    (List.map (resultOfRow qualifierId server) content) = true <->
  NoDup (List.map Columns.LOGIN content).
Proof.
  rewrite conflict_free_iff, upload_keys. split.
  - intros [ND _]. exact (NoDup_map_inv _ _ ND).
  - intros ND. split.
    + apply NoDup_map_injective; auto. now intros x y [= ->].
    + intros d Hd I. apply in_map_iff in Hd. destruct Hd as (row & <- & _).
      apply in_map_iff in I. destruct I as (r & K & Hr).
      unfold resultsOfOtherUploads in Hr. apply filter_In in Hr.
      destruct Hr as [_ Hr]. unfold result_key, resultOfRow in K.
      cbn in K. injection K as _ Kq Ks.
      rewrite Kq, Ks, !Z.eqb_refl in Hr. discriminate.
Qed.

Lemma find_player_app id l1 l2 :
  find_player id (l1 ++ l2) =
  match find_player id l1 with
  | Some p => Some p
  | None => find_player id l2
  end.
Proof.
  unfold find_player. induction l1 as [|p l1 IH]; simpl; auto.
  destruct (String.eqb (Player.id p) id); auto.
Qed.

Lemma find_player_existsb id players :
  existsb (fun p => String.eqb (Player.id p) id) players =
  match find_player id players with Some _ => true | None => false end.
Proof.
  unfold find_player. induction players as [|p players IH]; simpl; auto.
  destruct (String.eqb (Player.id p) id); auto.
Qed.

Lemma find_player_update players id name zone id' :
  find_player id'
    (List.map (fun p =>
                 if String.eqb (Player.id p) id
                 then Player.make name (Player.id p) zone
                 else p)
       players) =
  if String.eqb id id'
  then match find_player id players with
       | Some _ => Some (Player.make name id zone)
       | None => None
       end
  else find_player id' players.
Proof.
  unfold find_player. induction players as [|p players IH]; simpl.
  - now destruct (String.eqb id id').
  - destruct (String.eqb_spec (Player.id p) id) as [Ep|Np]; simpl.
    + rewrite Ep. destruct (String.eqb_spec id id') as [E|N]; [reflexivity|].
      exact IH.
    + destruct (String.eqb_spec (Player.id p) id') as [Ep'|Np'].
      * destruct (String.eqb_spec id id'); [congruence | reflexivity].
      * exact IH.
Qed.

Lemma find_player_upsert players id name zone id' :
  find_player id' (upsert players id name zone) =
  if String.eqb id id' then Some (Player.make name id zone)
  else find_player id' players.
Proof.
  unfold upsert. rewrite find_player_existsb.
  destruct (find_player id players) as [p0|] eqn:F.
  - rewrite find_player_update, F. reflexivity.
  - rewrite find_player_app. unfold find_player at 2. simpl.
    destruct (String.eqb_spec id id') as [<-|Hne].
    + now rewrite F.
    + now destruct (find_player id' players).
Qed.

Lemma playersAfter_snoc content row players :
  playersAfter (content ++ [row]) players =
  upsert (playersAfter content players) (Columns.LOGIN row)
    (Columns.NAME row) (Columns.ZONE row).
Proof. unfold playersAfter. now rewrite fold_left_app. Qed.

Lemma find_player_after content players id :
  find_player id (playersAfter content players) =
  match last_row id content with
  | Some row => Some (Player.make (Columns.NAME row) id (Columns.ZONE row))
  | None => find_player id players
  end.
Proof.
  induction content as [|row content IH] using rev_ind; [reflexivity|].
  rewrite playersAfter_snoc, find_player_upsert.
  unfold last_row in *. rewrite rev_app_distr. simpl.
  destruct (String.eqb_spec (Columns.LOGIN row) id) as [<-|Hne].
  - reflexivity.
  - exact IH.
Qed.

Lemma upsert_ids players id name zone :
  List.map Player.id (upsert players id name zone) =
  if existsb (fun p => String.eqb (Player.id p) id) players
  then List.map Player.id players
  else List.map Player.id players ++ [id].
Proof.
  unfold upsert. destruct (existsb _ players).
  - rewrite map_map. apply map_ext. intros p.
    now destruct (String.eqb (Player.id p) id).
  - now rewrite map_app.
Qed.

Lemma upsert_NoDup players id name zone :
  NoDup (List.map Player.id players) ->
  NoDup (List.map Player.id (upsert players id name zone)).
Proof.
  intros ND. rewrite upsert_ids.
  destruct (existsb _ players) eqn:E; auto.
  apply NoDup_app; auto.
  - repeat constructor. intros [].
  - intros a Ha [Ea|[]]. subst a.
    assert (X : existsb (fun p => String.eqb (Player.id p) id) players = true).
    { apply in_map_iff in Ha. destruct Ha as (p & Ep & Hp).
      apply existsb_exists. exists p. split; auto. now apply String.eqb_eq. }
    congruence.
Qed.

(** X14: after [updateResults], whatever its outcome, the player with
    a login of the upload has the name and zone of the last row with
    that login; every other player is as before; and the player ids stay
    pairwise distinct. *)
Theorem updateResults_players :
  forall (qualifierId server : Z) (content : list Columns.t)
         (w : fullDatabase.t) (id : string),
    find_player id
      (fullDatabase.player (fst (updateResults qualifierId server content w)))
    = match last_row id content with
      | Some row =>
          Some (Player.make (Columns.NAME row) id (Columns.ZONE row))
      | None => find_player id (fullDatabase.player w)
      end
    /\ (NoDup (List.map Player.id (fullDatabase.player w)) ->
        NoDup (List.map Player.id
                 (fullDatabase.player
                    (fst (updateResults qualifierId server content w))))).
Proof.
  intros qualifierId server content w id.
  destruct (updateResults_tables qualifierId server content w)
    as (_ & _ & _ & _ & _ & P).
  cbv zeta in P. rewrite P. split.
  - apply find_player_after.
  - intros ND. clear P.
    induction content as [|row content IH] using rev_ind; [exact ND|].
    rewrite playersAfter_snoc. now apply upsert_NoDup.
Qed.

Lemma last_row_In row content :
  In row content ->
  exists row', last_row (Columns.LOGIN row) content = Some row'.
Proof.
  intros Hin. unfold last_row.
  destruct (find _ (rev content)) as [row'|] eqn:F; eauto.
  apply find_none with (x := row) in F; [|now apply in_rev in Hin].
  rewrite String.eqb_refl in F. discriminate.
Qed.

Lemma forallb_constant (A : Type) (f : A -> bool) (b : bool) (l : list A) :
  (forall x, In x l -> f x = b) ->
  forallb f l = match l with [] => true | _ :: _ => b end.
Proof.
  induction l as [|x l IH]; intros H; simpl; auto.
  rewrite (H x (or_introl eq_refl)), IH by (intros; apply H; now right).
  destruct l; [apply andb_true_r | apply andb_diag].
Qed.

Lemma forallb_of_map (A B : Type) (g : A -> B) (f : B -> bool) (l : list A) :
  forallb f (List.map g l) = forallb (fun x => f (g x)) l.
Proof. induction l as [|x l IH]; simpl; congruence. Qed.

(** The relations of the uploaded rows hold as soon as the qualifier
    exists: the players do, after the upserts. *)
Lemma upload_references qualifierId server content tables rows players :
  forallb
    (references_hold
       (fullDatabase.make (with_qualifierResult tables rows)
          (playersAfter content players)))
    (List.map (resultOfRow qualifierId server) content) =
  match content with
  | [] => true
  | _ :: _ =>
      existsb (fun q => Qualifier.id q =? qualifierId)
        (database.qualifier tables)
  end.
Proof.
  rewrite forallb_of_map.
  rewrite (@forallb_constant _ _
             (existsb (fun q => Qualifier.id q =? qualifierId)
                (database.qualifier tables)) content).
  - reflexivity.
  - intros row Hrow. unfold references_hold.
    cbn [fullDatabase.tables fullDatabase.player with_qualifierResult
         database.qualifier resultOfRow QualifierResult.qualifierId
         QualifierResult.playerId].
    rewrite find_player_existsb, find_player_after.
    destruct (last_row_In row content Hrow) as [row' ->].
    apply andb_true_r.
Qed.

Lemma qualifierExists_existsb qualifierId db :
  existsb (fun q => Qualifier.id q =? qualifierId) (database.qualifier db)
  = true <-> qualifierExists qualifierId db.
Proof.
  unfold qualifierExists. rewrite existsb_exists.
  split; intros (q & H1 & H2); exists q; split; auto;
    now apply Z.eqb_eq.
Qed.

Lemma updateResults_snd qualifierId server content w :
  snd (updateResults qualifierId server content w) =
  if negb (conflict_free
             (resultsOfOtherUploads qualifierId server
                (database.qualifierResult (fullDatabase.tables w)))
             (List.map (resultOfRow qualifierId server) content))
  then inl UniqueConstraintFailed
  else if negb match content with
               | [] => true
               | _ :: _ =>
                   existsb (fun q => Qualifier.id q =? qualifierId)
                     (database.qualifier (fullDatabase.tables w))
               end
       then inl ForeignKeyConstraintFailed
       else inr tt.
Proof.
  rewrite updateResults_eq. cbv zeta. rewrite upload_references.
  destruct (negb (conflict_free _ _)); [reflexivity|].
  destruct (negb _); reflexivity.
Qed.

Lemma resultsOfOtherUploads_upload qualifierId server rows content :
  resultsOfOtherUploads qualifierId server
    (resultsOfOtherUploads qualifierId server rows
     ++ List.map (resultOfRow qualifierId server) content) =
  resultsOfOtherUploads qualifierId server rows.
Proof.
  unfold resultsOfOtherUploads. rewrite filter_app, filter_idempotent.
  rewrite (filter_nothing _ (List.map _ content)).
  - apply app_nil_r.
  - intros r Hr. apply in_map_iff in Hr. destruct Hr as (row & <- & _).
    cbn. now rewrite !Z.eqb_refl.
Qed.

(** X15: an upload supersedes the previous upload for the same
    qualifier and server: after a first upload, whatever its outcome, a
    second one has the outcome and leaves the results that it would
    have had and left without the first. *)
Theorem updateResults_supersedes :
  forall (qualifierId server : Z) (first second : list Columns.t)
         (w : fullDatabase.t),
    let w1 := fst (updateResults qualifierId server first w) in
    snd (updateResults qualifierId server second w1) =
    snd (updateResults qualifierId server second w)
    /\ database.qualifierResult
         (fullDatabase.tables
            (fst (updateResults qualifierId server second w1))) =
       database.qualifierResult
         (fullDatabase.tables
            (fst (updateResults qualifierId server second w))).
Proof.
  intros qualifierId server first second w. cbv zeta.
  destruct (updateResults_tables qualifierId server first w)
    as (R1 & _ & _ & Q1 & _ & _). cbv zeta in R1, Q1.
  set (w1 := fst (updateResults qualifierId server first w)) in *.
  assert (S : snd (updateResults qualifierId server second w1) =
              snd (updateResults qualifierId server second w)).
  { rewrite !updateResults_snd, Q1.
    assert (C : conflict_free
                  (resultsOfOtherUploads qualifierId server
                     (database.qualifierResult (fullDatabase.tables w1)))
                  (List.map (resultOfRow qualifierId server) second) =
                conflict_free
                  (resultsOfOtherUploads qualifierId server
                     (database.qualifierResult (fullDatabase.tables w)))
                  (List.map (resultOfRow qualifierId server) second)).
    { apply eq_true_iff_eq. now rewrite !upload_conflict_free. }
    rewrite C. reflexivity. }
  split; [exact S|].
  destruct (updateResults_tables qualifierId server second w1)
    as (R2 & _). cbv zeta in R2.
  destruct (updateResults_tables qualifierId server second w)
    as (R3 & _). cbv zeta in R3.
  rewrite R2, R3, S, R1.
  destruct (snd (updateResults qualifierId server first w)).
  - now rewrite (resultsOfOtherUploads_upload qualifierId server _ []
                   : resultsOfOtherUploads qualifierId server (_ ++ []) = _).
  - now rewrite resultsOfOtherUploads_upload.
Qed.

(** ** The handlers *)

Lemma updateLeaderboard_missing cupId db :
  (forall c, In c (database.cup db) -> Cup.id c <> cupId)
  \/ (forall l, In l (database.leaderboard db) ->
                Leaderboard.cupId l <> cupId) ->
  exists err, updateLeaderboard cupId db = (db, inl err).
Proof.
  intros H. unfold updateLeaderboard, bind, cup_findUnique, throw.
  destruct (find (fun c => Cup.id c =? cupId) (database.cup db))
    as [cup|] eqn:Ec; [|eauto].
  apply find_some in Ec. destruct Ec as [Hin Hid]. apply Z.eqb_eq in Hid.
  destruct H as [H|H]; [exfalso; exact (H cup Hin Hid)|].
  assert (El : find (fun l => Leaderboard.cupId l =? Cup.id cup)
                 (database.leaderboard db) = None).
  { apply find_none_iff. intros l Hl. apply Z.eqb_neq.
    rewrite Hid. now apply H. }
  rewrite El. eauto.
Qed.

Lemma set_tables_same w :
  fullDatabase.set_tables w (fullDatabase.tables w) = w.
Proof. now destruct w. Qed.


(** [updateResults] on a valid upload. *)
Lemma updateResults_valid qualifierId server content w :
  NoDup (List.map Columns.LOGIN content) ->
  content = [] \/ qualifierExists qualifierId (fullDatabase.tables w) ->
  updateResults qualifierId server content w =
  (fullDatabase.make
     (with_qualifierResult (fullDatabase.tables w)
        (resultsOfOtherUploads qualifierId server
           (database.qualifierResult (fullDatabase.tables w))
         ++ List.map (resultOfRow qualifierId server) content))
     (playersAfter content (fullDatabase.player w)),
   inr tt).
Proof.
  intros ND Hq. rewrite updateResults_eq. cbv zeta.
  rewrite upload_references.
  apply (upload_conflict_free qualifierId server content
           (database.qualifierResult (fullDatabase.tables w))) in ND.
  rewrite ND. cbn [negb].
  destruct content as [|row content]; [reflexivity|].
  destruct Hq as [Hq|Hq]; [discriminate|].
  apply qualifierExists_existsb in Hq. rewrite Hq. reflexivity.
Qed.

(** X19: [clearQualifier] for a cup that does not exist, or has no
    leaderboard, answers with error 500 after it has deleted the results
    of the qualifier; the leaderboard entries are left as they were. *)
Theorem clearQualifier_missing_cup :
  forall (qualifierId : string) (qualifierIdAsNumber cupId : Z)
         (w : fullDatabase.t),
    (forall c, In c (database.cup (fullDatabase.tables w)) ->
               Cup.id c <> cupId)
    \/ (forall l, In l (database.leaderboard (fullDatabase.tables w)) ->
                  Leaderboard.cupId l <> cupId) ->
    let after :=
      fst (clearQualifier qualifierId qualifierIdAsNumber cupId w) in
    snd (clearQualifier qualifierId qualifierIdAsNumber cupId w) =
      Next_HttpError 500
        ("Failed to clear data of qualifier " ++ qualifierId ++ ".")
    /\ database.qualifierResult (fullDatabase.tables after) =
       filter
         (fun r => negb (QualifierResult.qualifierId r =? qualifierIdAsNumber))
         (database.qualifierResult (fullDatabase.tables w))
    /\ database.leaderboardEntry (fullDatabase.tables after) =
       database.leaderboardEntry (fullDatabase.tables w).
Proof.
  intros qualifierId qualifierIdAsNumber cupId w Hmiss.
  cbv zeta.
  unfold clearQualifier, try_catch, task_bind,
    qualifierResult_deleteMany_qualifier, liftPrisma.
  cbn [fullDatabase.tables fullDatabase.set_tables].
  edestruct (@updateLeaderboard_missing cupId) as [err ->];
    [exact Hmiss|].
  cbn [fst snd fullDatabase.set_tables fullDatabase.tables
       database.qualifierResult database.leaderboardEntry
       with_qualifierResult].
  repeat split.
Qed.

(** X20: [deleteQualifier] for a qualifier that does not exist answers
    with error 500 and leaves the database as it was: the leaderboard
    is not recomputed. *)
Theorem deleteQualifier_missing_qualifier :
  forall (qualifierId cupId : Z) (w : fullDatabase.t),
    (forall q, In q (database.qualifier (fullDatabase.tables w)) ->
               Qualifier.id q <> qualifierId) ->
    deleteQualifier qualifierId cupId w =
    (w, Next_HttpError 500 "Failed create qualifier.").
Proof.
  intros qualifierId cupId w H.
  unfold deleteQualifier, try_catch, task_bind, qualifier_delete.
  assert (F : find (fun q => Qualifier.id q =? qualifierId)
                (database.qualifier (fullDatabase.tables w)) = None).
  { apply find_none_iff. intros q Hq. apply Z.eqb_neq. now apply H. }
  rewrite F. reflexivity.
Qed.

(** X22: [setCupToCurrent] for an existing cup answers with that cup,
    now current; afterwards a cup is current exactly when it has the
    given id, and nothing else about the cups has changed. *)
Theorem setCupToCurrent_success :
  forall (cupId : string) (id : Z) (w : fullDatabase.t) (cup : Cup.t),
    find (fun c => Cup.id c =? id) (database.cup (fullDatabase.tables w))
      = Some cup ->
    snd (setCupToCurrent cupId id w) = Json_cup (cup_with_current cup true)
    /\ database.cup (fullDatabase.tables (fst (setCupToCurrent cupId id w))) =
       List.map (fun c => cup_with_current c (Cup.id c =? id))
         (database.cup (fullDatabase.tables w)).
Proof.
  intros cupId id w cup Ec.
  unfold setCupToCurrent, try_catch, task_bind, cup_updateMany_current,
    cup_update_current.
  cbn [fullDatabase.tables fullDatabase.set_tables with_cup database.cup].
  assert (F : find (fun c => Cup.id c =? id)
                (List.map (fun c => cup_with_current c false)
                   (database.cup (fullDatabase.tables w))) =
              Some (cup_with_current cup false)).
  { revert Ec. generalize (database.cup (fullDatabase.tables w)).
    induction l as [|c l IH]; simpl; [discriminate|].
    destruct (Cup.id c =? id); [intros [= ->]; reflexivity | exact IH]. }
  rewrite F.
  cbn [fst snd fullDatabase.tables fullDatabase.set_tables with_cup
       database.cup].
  split; [reflexivity|].
  rewrite map_map. apply map_ext. intros c.
  unfold cup_with_current. simpl. destruct (Cup.id c =? id); reflexivity.
Qed.

(** X23: [setCupToCurrent] for a cup that does not exist answers with
    error 500 after it has made every cup non-current: no cup is
    current any more. *)
Theorem setCupToCurrent_missing_cup :
  forall (cupId : string) (id : Z) (w : fullDatabase.t),
    (forall c, In c (database.cup (fullDatabase.tables w)) ->
               Cup.id c <> id) ->
    snd (setCupToCurrent cupId id w) =
      Next_HttpError 500 ("Error while deleting cup " ++ cupId ++ ".")
    /\ database.cup (fullDatabase.tables (fst (setCupToCurrent cupId id w))) =
       List.map (fun c => cup_with_current c false)
         (database.cup (fullDatabase.tables w)).
Proof.
  intros cupId id w H.
  unfold setCupToCurrent, try_catch, task_bind, cup_updateMany_current,
    cup_update_current.
  cbn [fullDatabase.tables fullDatabase.set_tables with_cup database.cup].
  assert (F : find (fun c => Cup.id c =? id)
                (List.map (fun c => cup_with_current c false)
                   (database.cup (fullDatabase.tables w))) = None).
  { apply find_none_iff. intros c Hc. apply in_map_iff in Hc.
    destruct Hc as (c0 & <- & Hc0). apply Z.eqb_neq. exact (H c0 Hc0). }
  rewrite F.
  cbn [fst snd fullDatabase.tables fullDatabase.set_tables with_cup
       database.cup].
  split; reflexivity.
Qed.

(** ** The further properties at the example data *)

Ltac distinct_strings :=
  repeat (constructor; [simpl; intuition discriminate|]); constructor.

Lemma rank_between_one_and_place_witness :
  1 <= LeaderboardEntry.position scenario_P2
    <= Z.of_nat (List.length [scenario_P1]) + 1.
Proof.
  apply (@rank_between_one_and_place 7 results_scenario
           [scenario_P1] [scenario_P3] scenario_P2).
  vm_compute. reflexivity.
Defined.

Lemma level_points_share_rank_witness :
  LeaderboardEntry.position (LeaderboardEntry.make true 50000 "first" 1 1) =
  LeaderboardEntry.position (LeaderboardEntry.make false 50000 "fifth" 1 1).
Proof.
  apply (@level_points_share_rank 1 results_level [] [] []
           (LeaderboardEntry.make true 50000 "first" 1 1)
           (LeaderboardEntry.make false 50000 "fifth" 1 1)).
  - vm_compute. reflexivity.
  - reflexivity.
Defined.

Lemma rank_drops_after_other_points_witness :
  LeaderboardEntry.position scenario_P1 < LeaderboardEntry.position scenario_P2.
Proof.
  apply (@rank_drops_after_other_points 7 results_scenario
           [] [scenario_P3] scenario_P1 scenario_P2).
  - vm_compute. reflexivity.
  - reflexivity.
  - simpl. lia.
Defined.

Lemma competition_rank_without_qualified_witness :
  LeaderboardEntry.position (LeaderboardEntry.make false 100 "cleo" 7 3) =
  1 + count_more 100 (sortedLeaderboard 7 results_tie).
Proof.
  apply (@competition_rank_without_qualified 7 results_tie
           [ LeaderboardEntry.make false 5000 "anna" 7 1;
             LeaderboardEntry.make false 5000 "ben" 7 1 ]%string
           []
           (LeaderboardEntry.make false 100 "cleo" 7 3)).
  - vm_compute. reflexivity.
  - intros x Hx. vm_compute in Hx.
    destruct Hx as [<-|[<-|[<-|[]]]]; reflexivity.
Defined.


Lemma award_monotone_in_raw_points_witness :
  getPointsByResult (result_of "P1" 1 1 10 100) <=
  getPointsByResult (result_of "P1" 1 1 10 7000).
Proof.
  apply (@award_monotone_in_raw_points
           (result_of "P1" 1 1 10 100) (result_of "P1" 1 1 10 7000));
    simpl; lia.
Defined.

Lemma updateLeaderboard_keeps_primary_key_witness :
  NoDup (List.map entry_key
           (database.leaderboardEntry (fst (updateLeaderboard 1 example_db)))).
Proof.
  apply (@updateLeaderboard_keeps_primary_key 1 example_db).
  distinct_strings.
Defined.

Lemma example_qualifier_exists :
  qualifierExists 1 (fullDatabase.tables example_world).
Proof.
  exists (Qualifier.make 1 1 1). split; [simpl; tauto | reflexivity].
Defined.

Lemma clearQualifier_missing_cup_witness :
  snd (clearQualifier "1" 1 2 example_world) =
  Next_HttpError 500 "Failed to clear data of qualifier 1.".
Proof.
  refine (proj1 (@clearQualifier_missing_cup "1" 1 2 example_world _)).
  right. intros l Hl. simpl in Hl. destruct Hl as [<-|[]]; simpl; lia.
Defined.

Lemma deleteQualifier_missing_qualifier_witness :
  deleteQualifier 9 1 example_world =
  (example_world, Next_HttpError 500 "Failed create qualifier.").
Proof.
  apply (@deleteQualifier_missing_qualifier 9 1 example_world).
  intros q Hq. simpl in Hq. destruct Hq as [<-|[<-|[]]]; simpl; lia.
Defined.

Lemma setCupToCurrent_success_witness :
  snd (setCupToCurrent "2" 2 example_world) =
  Json_cup (Cup.make 2 2026 11 false true "November").
Proof.
  exact (proj1 (@setCupToCurrent_success "2" 2 example_world
                  (Cup.make 2 2026 11 false false "November") eq_refl)).
Defined.

Lemma setCupToCurrent_missing_cup_witness :
  snd (setCupToCurrent "5" 5 example_world) =
  Next_HttpError 500 "Error while deleting cup 5.".
Proof.
  refine (proj1 (@setCupToCurrent_missing_cup "5" 5 example_world _)).
  intros c Hc. simpl in Hc. destruct Hc as [<-|[<-|[]]]; simpl; lia.
Defined.


(** * Player ids that [Object.prototype] knows *)

Lemma fold_accumulate_plain_NotAnEntry inherited leaderboardId results id :
  fold_left (accumulate_plain inherited leaderboardId) results (NotAnEntry id)
  = NotAnEntry id.
Proof. induction results as [|r results IH]; simpl; auto. Qed.

(** When no player id is an inherited name, the loop on the plain object
    is the loop on the own properties. *)
Lemma fold_accumulate_plain_clean inherited leaderboardId results :
  (forall r, In r results -> inherited (QualifierResult.playerId r) = false) ->
  forall map,
    fold_left (accumulate_plain inherited leaderboardId) results (Entries map)
    = Entries (fold_left (accumulate leaderboardId) results map).
Proof.
  induction results as [|r results IH]; intros H map; [reflexivity|].
  cbn [fold_left]. unfold accumulate_plain at 2.
  rewrite (H r (or_introl eq_refl)).
  destruct (js_get (QualifierResult.playerId r) map);
    apply IH; intros; apply H; now right.
Qed.

Lemma js_keys_set_In (V : Type) (key : string) (v : V) (o : object V) k :
  In k (js_keys (js_set key v o)) -> k = key \/ In k (js_keys o).
Proof.
  intros Hk. destruct (js_get key o) as [w|] eqn:E.
  - rewrite (@js_keys_set_old V key v o w E) in Hk. now right.
  - apply (Permutation_in _ (@js_keys_set_new V key v o E)) in Hk.
    destruct Hk as [<-|Hk]; auto.
Qed.

(** The first result whose player id is an inherited name ends the run
    of entries: the map cannot own that name yet. *)
Lemma fold_accumulate_plain_inherited inherited leaderboardId results :
  forall map,
    (forall k, In k (js_keys map) -> inherited k = false) ->
    (exists r, In r results
               /\ inherited (QualifierResult.playerId r) = true) ->
    exists id,
      inherited id = true
      /\ fold_left (accumulate_plain inherited leaderboardId) results
           (Entries map) = NotAnEntry id.
Proof.
  induction results as [|r results IH]; intros map Hclean (r0 & Hin & Hr0);
    [destruct Hin|].
  cbn [fold_left]. unfold accumulate_plain at 2.
  destruct (inherited (QualifierResult.playerId r)) eqn:Hr.
  - destruct (js_get (QualifierResult.playerId r) map) as [e|] eqn:E.
    + apply js_get_Some_keys in E. rewrite (Hclean _ E) in Hr. discriminate.
    + exists (QualifierResult.playerId r). split; auto.
      apply fold_accumulate_plain_NotAnEntry.
  - assert (Hclean' : forall k,
              In k (js_keys (accumulate leaderboardId map r)) ->
              inherited k = false).
    { intros k Hk. rewrite accumulate_absorb in Hk.
      apply js_keys_set_In in Hk. destruct Hk as [->|Hk]; auto. }
    assert (Hrest : exists r1, In r1 results
                      /\ inherited (QualifierResult.playerId r1) = true).
    { destruct Hin as [<-|Hin]; [congruence|]. eauto. }
    destruct (js_get (QualifierResult.playerId r) map);
      apply IH; auto.
Qed.

Lemma leaderboardEntries_plain_clean inherited leaderboardId results :
  (forall r, In r results -> inherited (QualifierResult.playerId r) = false) ->
  leaderboardEntries_plain inherited leaderboardId results =
  Some (leaderboardEntries leaderboardId results).
Proof.
  intros H. unfold leaderboardEntries_plain, groupByPlayer_plain.
  rewrite (fold_accumulate_plain_clean inherited leaderboardId results H).
  reflexivity.
Qed.

Lemma leaderboardEntries_plain_inherited inherited leaderboardId results :
  (exists r, In r results /\ inherited (QualifierResult.playerId r) = true) ->
  exists id,
    inherited id = true
    /\ groupByPlayer_plain inherited leaderboardId results = NotAnEntry id
    /\ leaderboardEntries_plain inherited leaderboardId results = None.
Proof.
  intros H.
  destruct (@fold_accumulate_plain_inherited inherited leaderboardId results
              [] ltac:(intros k []) H) as (id & Hid & F).
  exists id. unfold leaderboardEntries_plain, groupByPlayer_plain.
  rewrite F. auto.
Qed.

(** The entries [createMany] is given on a plain object, when there are
    any: no player id is an inherited name, and they are the entries of
    the own-property model. *)
Lemma leaderboardEntries_plain_Some inherited leaderboardId results entries :
  leaderboardEntries_plain inherited leaderboardId results = Some entries ->
  entries = leaderboardEntries leaderboardId results
  /\ (forall r, In r results ->
                inherited (QualifierResult.playerId r) = false).
Proof.
  intros E.
  assert (H : forall r, In r results ->
                        inherited (QualifierResult.playerId r) = false).
  { intros r Hr.
    destruct (inherited (QualifierResult.playerId r)) eqn:Hi; auto.
    destruct (@leaderboardEntries_plain_inherited inherited leaderboardId
                results (ex_intro _ r (conj Hr Hi))) as (id & _ & _ & N).
    congruence. }
  split; auto.
  rewrite (leaderboardEntries_plain_clean inherited leaderboardId results H)
    in E.
  congruence.
Qed.

(** C3: for every list of results without a player id that is a name
    inherited from [Object.prototype], the written entries hold exactly
    one entry of each player with a result and none of any other
    player; the entry's points are the sum of [getPointsByResult] over
    the player's results and its qualified flag is the OR of
    [isQualified] over them.  As soon as a result has such a player id,
    the loop takes the inherited value for that player's entry: no
    entry literal is made, and the run hands [createMany] no list of
    entries. *)
Theorem C3_one_entry_per_player_unless_inherited :
  forall (inherited : string -> bool) (leaderboardId : Z)
         (results : list QualifierResult.t),
    ((forall r, In r results ->
                inherited (QualifierResult.playerId r) = false) ->
     exists entries,
       leaderboardEntries_plain inherited leaderboardId results = Some entries
       /\ forall player,
            match resultsOf player results with
            | [] => entriesOf player entries = []
            | mine =>
                exists rank,
                  entriesOf player entries =
                  [LeaderboardEntry.make (anyQualifying mine)
                     (totalPoints mine) player leaderboardId rank]
            end)
    /\ ((exists r, In r results
                   /\ inherited (QualifierResult.playerId r) = true) ->
        exists id,
          inherited id = true
          /\ groupByPlayer_plain inherited leaderboardId results
             = NotAnEntry id
          /\ leaderboardEntries_plain inherited leaderboardId results = None).
Proof.
  intros inherited leaderboardId results. split.
  - intros H. exists (leaderboardEntries leaderboardId results). split.
    + now apply leaderboardEntries_plain_clean.
    + apply leaderboardEntries_player.
  - apply leaderboardEntries_plain_inherited.
Qed.

(** The failing inputs of C3: a player "__proto__" beside a player
    "P1", and a player "constructor". *)
Example inherited_player_ids_make_no_entry :
  groupByPlayer_plain inherited_from_Object_prototype 7
    [ result_of "P1" 1 1 1 0; result_of "__proto__" 1 1 2 0 ]%string
  = NotAnEntry "__proto__"
  /\ groupByPlayer_plain inherited_from_Object_prototype 7
       [ result_of "constructor" 1 1 1 0 ]%string
     = NotAnEntry "constructor"
  /\ leaderboardEntries_plain inherited_from_Object_prototype 7
       results_scenario
     = Some [ scenario_P1; scenario_P2; scenario_P3 ].
Proof. repeat split. Qed.

(** * The properties that depend on the player ids or on a normal return *)

Lemma leaderboardEntries_sumPoints leaderboardId results :
  sumPoints (leaderboardEntries leaderboardId results) = totalPoints results.
Proof.
  unfold leaderboardEntries, computeLeaderboard, assignRanks, sumPoints.
  cbn [fst]. rewrite rank_loop_points. cbn [snd].
  apply groupByPlayer_sumPoints.
Qed.

(** X5: when no player id is a name inherited from [Object.prototype],
    so that the run hands [createMany] a list of entries, no points are
    lost or counted twice: the points of those entries add up to the
    points awarded to all results. *)
Theorem points_conserved :
  forall (inherited : string -> bool) (leaderboardId : Z)
         (results : list QualifierResult.t)
         (entries : list LeaderboardEntry.t),
    leaderboardEntries_plain inherited leaderboardId results = Some entries ->
    sumPoints entries = totalPoints results.
Proof.
  intros inherited leaderboardId results entries E.
  apply leaderboardEntries_plain_Some in E. destruct E as [-> _].
  apply leaderboardEntries_sumPoints.
Qed.


(** X12: [updateResults] throws when a login occurs twice in the upload
    (the primary key of [QualifierResult]) and when the upload has rows
    but its qualifier does not exist (its relation); the stored results
    of the qualifier and server have then been deleted and none of the
    uploaded rows is stored. *)
Theorem updateResults_throws :
  forall (qualifierId server : Z) (content : list Columns.t)
         (w : fullDatabase.t),
    ~ NoDup (List.map Columns.LOGIN content)
    \/ (content <> []
        /\ ~ qualifierExists qualifierId (fullDatabase.tables w)) ->
    (exists e, snd (updateResults qualifierId server content w) = inl e)
    /\ database.qualifierResult
         (fullDatabase.tables (fst (updateResults qualifierId server content w)))
       = resultsOfOtherUploads qualifierId server
           (database.qualifierResult (fullDatabase.tables w)).
Proof.
  intros qualifierId server content w H.
  assert (T : exists e, snd (updateResults qualifierId server content w)
                        = inl e).
  { rewrite updateResults_snd.
    destruct (conflict_free _ _) eqn:C; cbn [negb]; [|eauto].
    apply upload_conflict_free in C.
    destruct H as [H|[Hne Hq]]; [contradiction|].
    destruct content as [|row content]; [congruence|].
    destruct (existsb _ _) eqn:Q; cbn [negb]; [|eauto].
    apply qualifierExists_existsb in Q. contradiction. }
  split; [exact T|].
  destruct T as [e T].
  destruct (updateResults_tables qualifierId server content w) as (R & _).
  cbv zeta in R. rewrite R, T. apply app_nil_r.
Qed.



(** X17: when the body has passed [dataSchema] and [updateResults]
    returns normally, but the cup does not exist or has no leaderboard,
    [updateQualifier] answers with error 400 although the upload has
    been stored; the leaderboard entries are left as they were. *)
Theorem updateQualifier_missing_cup :
  forall (dataSchema : Z -> list Columns.t -> option string)
         (qualifierId cupId server : Z) (data : list Columns.t)
         (w : fullDatabase.t),
    dataSchema server data = None ->
    snd (updateResults qualifierId server data w) = inr tt ->
    (forall c, In c (database.cup (fullDatabase.tables w)) ->
               Cup.id c <> cupId)
    \/ (forall l, In l (database.leaderboard (fullDatabase.tables w)) ->
                  Leaderboard.cupId l <> cupId) ->
    snd (updateQualifier dataSchema qualifierId cupId server data w) =
      Next_HttpError 400 "Failed to parse data to leaderboard."
    /\ database.qualifierResult
         (fullDatabase.tables
            (fst (updateQualifier dataSchema qualifierId cupId server data w)))
       = resultsOfOtherUploads qualifierId server
           (database.qualifierResult (fullDatabase.tables w))
         ++ List.map (resultOfRow qualifierId server) data
    /\ database.leaderboardEntry
         (fullDatabase.tables
            (fst (updateQualifier dataSchema qualifierId cupId server data w)))
       = database.leaderboardEntry (fullDatabase.tables w).
Proof.
  intros dataSchema qualifierId cupId server data w Hv Hok Hmiss.
  unfold updateQualifier. rewrite Hv. unfold try_catch, task_bind.
  destruct (updateResults_tables qualifierId server data w)
    as (R & Cu & Le & _ & En & _). cbv zeta in R, Cu, Le, En.
  rewrite Hok in R.
  destruct (updateResults qualifierId server data w) as [w1 r] eqn:U.
  cbn [fst snd] in *. subst r.
  unfold liftPrisma.
  destruct (@updateLeaderboard_missing cupId (fullDatabase.tables w1))
    as [err M]; [rewrite Cu, Le; exact Hmiss|].
  rewrite M. cbn [fst snd]. rewrite set_tables_same.
  repeat split; assumption.
Qed.



(** ** These properties at the example data *)

Lemma points_conserved_witness :
  sumPoints [ scenario_P1; scenario_P2; scenario_P3 ] =
  totalPoints results_scenario.
Proof.
  apply (@points_conserved inherited_from_Object_prototype 7
           results_scenario [ scenario_P1; scenario_P2; scenario_P3 ]).
  vm_compute. reflexivity.
Defined.


Lemma updateResults_throws_witness :
  exists e,
    snd (updateResults 1 1
           [ Columns.make 1 9000 "Anna" "P1" "Europe";
             Columns.make 2 8000 "Anna" "P1" "Europe" ]%string
           example_world) = inl e.
Proof.
  refine (proj1 (@updateResults_throws 1 1
                   [ Columns.make 1 9000 "Anna" "P1" "Europe";
                     Columns.make 2 8000 "Anna" "P1" "Europe" ]%string
                   example_world _)).
  left. intros ND. inversion ND as [|? ? Hnot _]. apply Hnot. simpl. auto.
Defined.


Lemma updateQualifier_missing_cup_witness :
  snd (updateQualifier example_dataSchema 1 3 1 example_upload example_world)
  = Next_HttpError 400 "Failed to parse data to leaderboard.".
Proof.
  refine (proj1 (@updateQualifier_missing_cup example_dataSchema 1 3 1
                   example_upload example_world eq_refl _ _)).
  - vm_compute. reflexivity.
  - left. intros c Hc. simpl in Hc.
    destruct Hc as [<-|[<-|[]]]; simpl; lia.
Defined.



(** The example upload for qualifier 1 on server 1: the scenario's rows
    are replaced, the result of the other cup stays, "P1" is renamed
    and "P4" is new; the leaderboard of cup 1 is recomputed. *)
Example updateQualifier_example :
  updateQualifier example_dataSchema 1 1 1 example_upload example_world =
  (fullDatabase.make
     (database.make
        (database.cup example_db) (database.leaderboard example_db)
        (database.qualifier example_db)
        [ result_of "P9" 2 1 1 0;
          result_of "P1" 1 1 1 9000;
          result_of "P4" 1 1 7 7100 ]%string
        [ LeaderboardEntry.make true 50000 "P1" 8 1;
          LeaderboardEntry.make true 50000 "P1" 7 1;
          LeaderboardEntry.make false 7500 "P4" 7 2 ]%string)
     [ Player.make "Anna A." "P1" "Europe"; Player.make "Ben" "P2" "Asia";
       Player.make "Dora" "P4" "Africa" ]%string,
   Json_success).
Proof. vm_compute. reflexivity. Qed.

(** A body the schema refuses is answered with the schema's error and
    nothing is written. *)
Lemma updateQualifier_refused_body
  (dataSchema : Z -> list Columns.t -> option string)
  (qualifierId cupId server : Z) (data : list Columns.t)
  (w : fullDatabase.t) (message : string) :
  dataSchema server data = Some message ->
  updateQualifier dataSchema qualifierId cupId server data w =
  (w, Next_HttpError 400 message).
Proof. intros H. unfold updateQualifier. now rewrite H. Qed.
